(** * InsideTheO: the game-prediction pipeline of [monte_carlo_sim.py]

    A shallow embedding of the record tracker, the strength model, the score
    simulator, the player projector, the team aggregation and the
    interactive caller, followed by the properties that were checked
    against them.

    The Python code computes on NumPy [float64] values.  The program is
    embedded once, over an abstract numeric interface [Float64], and that
    interface is instantiated twice:
    - [xq], exact rational arithmetic extended with the IEEE special values
      (the infinities and NaN), in which the general theorems are proved;
    - [b64], IEEE 754 binary64 with round-to-nearest-even, in which the
      program is evaluated on concrete inputs. *)

From Stdlib Require Import ZArith QArith Qround Qabs Qminmax Lia Lqa Ascii String Sorted.
From Stdlib.Floats Require Import SpecFloat.
From stdpp Require Import gmap strings pretty list.

Set Default Proof Using "Type".

(** ** Exceptions and the result monad *)

(** The Python exceptions the embedded functions can raise. *)
Inductive exn : Type :=
  | KeyError (key : string)      (* [DataFrame.loc] on a missing label *)
  | ZeroDivisionError            (* [int / int] with a zero divisor *)
  | ValueError                   (* [int(nan)] *)
  | OverflowError.               (* [int(inf)] *)

(** [KeyError] is the only subclass of [LookupError] among them. *)
Definition is_LookupError (e : exn) : bool :=
  match e with KeyError _ => true | _ => false end.

Inductive result (A : Type) : Type :=
  | Ok (a : A)
  | Raise (e : exn).
Arguments Ok {A} a.
Arguments Raise {A} e.

#[global] Instance result_ret : MRet result := fun _ a => Ok a.
#[global] Instance result_bind : MBind result := fun _ _ f m =>
  match m with
  | Ok a => f a
  | Raise e => Raise e
  end.

(** ** The numeric interface *)

(** What the pipeline needs of [float64]: conversion from Python integers,
    the four operations, the comparisons [>] and [==] (both false on NaN),
    the NaN test, [numpy.rint] and Python's [int()]. *)
Class Float64 (num : Type) : Type := {
  of_Z : Z → num;
  nan : num;
  fadd : num → num → num;
  fsub : num → num → num;
  fmul : num → num → num;
  fdiv : num → num → num;
  fgt : num → num → bool;
  feq : num → num → bool;
  isnan : num → bool;
  rint : num → num;
  to_int : num → result Z;
}.

Declare Scope float64_scope.
Delimit Scope float64_scope with fp.
Notation "x + y" := (fadd x y) : float64_scope.
Notation "x - y" := (fsub x y) : float64_scope.
Notation "x * y" := (fmul x y) : float64_scope.
Notation "x / y" := (fdiv x y) : float64_scope.

(** *** Exact arithmetic with the IEEE special values *)

Inductive xq : Type :=
  | Fin (q : Q)
  | PInf
  | NInf
  | NaN.

Definition xq_opp (x : xq) : xq :=
  match x with
  | Fin q => Fin (- q)
  | PInf => NInf
  | NInf => PInf
  | NaN => NaN
  end.

Definition xq_add (x y : xq) : xq :=
  match x, y with
  | NaN, _ | _, NaN => NaN
  | Fin a, Fin b => Fin (a + b)
  | PInf, NInf | NInf, PInf => NaN
  | PInf, _ | _, PInf => PInf
  | NInf, _ | _, NInf => NInf
  end.

Definition xq_sub (x y : xq) : xq := xq_add x (xq_opp y).

(** The infinity of the sign given by a comparison with zero; NaN for [Eq]
    (the cases [0 * inf] and [0 / 0]). *)
Definition xq_signed_inf (c : comparison) : xq :=
  match c with
  | Gt => PInf
  | Lt => NInf
  | Eq => NaN
  end.

Definition xq_sign (x : xq) : comparison :=
  match x with
  | Fin q => (q ?= 0)%Q
  | PInf => Gt
  | NInf => Lt
  | NaN => Eq
  end.

Definition comparison_mul (c d : comparison) : comparison :=
  match c, d with
  | Eq, _ | _, Eq => Eq
  | Gt, Gt | Lt, Lt => Gt
  | Gt, Lt | Lt, Gt => Lt
  end.

Definition xq_mul (x y : xq) : xq :=
  match x, y with
  | NaN, _ | _, NaN => NaN
  | Fin a, Fin b => Fin (a * b)
  | _, _ => xq_signed_inf (comparison_mul (xq_sign x) (xq_sign y))
  end.

(** Zero is unsigned here, so [a / 0] takes the sign of [a]. *)
Definition xq_div (x y : xq) : xq :=
  match x, y with
  | NaN, _ | _, NaN => NaN
  | Fin a, Fin b =>
      match (b ?= 0)%Q with
      | Eq => xq_signed_inf (a ?= 0)%Q
      | _ => Fin (a / b)
      end
  | Fin _, _ => Fin 0
  | _, Fin b =>
      match (b ?= 0)%Q with
      | Lt => xq_opp x
      | _ => x
      end
  | _, _ => NaN
  end.

Definition xq_gt (x y : xq) : bool :=
  match x, y with
  | Fin a, Fin b => match (a ?= b)%Q with Gt => true | _ => false end
  | PInf, Fin _ | PInf, NInf | Fin _, NInf => true
  | _, _ => false
  end.

Definition xq_eq (x y : xq) : bool :=
  match x, y with
  | Fin a, Fin b => Qeq_bool a b
  | PInf, PInf | NInf, NInf => true
  | _, _ => false
  end.

Definition xq_isnan (x : xq) : bool :=
  match x with NaN => true | _ => false end.

(** Round to the nearest integer, halves to the even one. *)
Definition round_half_even (q : Q) : Z :=
  let f := Qfloor q in
  match (q - inject_Z f ?= 1 # 2)%Q with
  | Lt => f
  | Gt => (f + 1)%Z
  | Eq => if Z.even f then f else (f + 1)%Z
  end.

Definition xq_rint (x : xq) : xq :=
  match x with
  | Fin q => Fin (inject_Z (round_half_even q))
  | _ => x
  end.

(** Truncation toward zero, as [int()] does. *)
Definition Qtrunc (q : Q) : Z :=
  if Qle_bool 0 q then Qfloor q else Qceiling q.

Definition xq_to_int (x : xq) : result Z :=
  match x with
  | Fin q => Ok (Qtrunc q)
  | PInf | NInf => Raise OverflowError
  | NaN => Raise ValueError
  end.

#[global] Instance xq_float64 : Float64 xq := {|
  of_Z z := Fin (inject_Z z);
  nan := NaN;
  fadd := xq_add;
  fsub := xq_sub;
  fmul := xq_mul;
  fdiv := xq_div;
  fgt := xq_gt;
  feq := xq_eq;
  isnan := xq_isnan;
  rint := xq_rint;
  to_int := xq_to_int;
|}.

(** *** IEEE 754 binary64 *)

Definition prec : Z := 53.
Definition emax : Z := 1024.

Definition b64 : Type := spec_float.

Definition b64_of_Z (z : Z) : b64 := binary_normalize prec emax z 0 false.

Definition b64_isnan (x : b64) : bool :=
  match x with S754_nan => true | _ => false end.

(** [numpy.rint]: a finite value with a negative exponent is [m / 2^-e];
    the quotient is rounded to the nearest integer, halves to even. *)
Definition b64_rint (x : b64) : b64 :=
  match x with
  | S754_finite s m e =>
      if (0 <=? e)%Z then x
      else
        let d := (2 ^ (- e))%Z in
        let f := (Zpos m / d)%Z in
        let r := (Zpos m mod d)%Z in
        let n := match (2 * r ?= d)%Z with
                 | Lt => f
                 | Gt => (f + 1)%Z
                 | Eq => if Z.even f then f else (f + 1)%Z
                 end in
        if (n =? 0)%Z then S754_zero s
        else binary_normalize prec emax (cond_Zopp s n) 0 s
  | _ => x
  end.

Definition b64_to_int (x : b64) : result Z :=
  match x with
  | S754_zero _ => Ok 0%Z
  | S754_finite s m e =>
      let a := if (0 <=? e)%Z then Z.shiftl (Zpos m) e
               else Z.shiftr (Zpos m) (- e) in
      Ok (cond_Zopp s a)
  | S754_infinity _ => Raise OverflowError
  | S754_nan => Raise ValueError
  end.

#[global] Instance b64_float64 : Float64 b64 := {|
  of_Z := b64_of_Z;
  nan := S754_nan;
  fadd := SFadd prec emax;
  fsub := SFsub prec emax;
  fmul := SFmul prec emax;
  fdiv := SFdiv prec emax;
  fgt x y := SFltb y x;
  feq := SFeqb;
  isnan := b64_isnan;
  rint := b64_rint;
  to_int := b64_to_int;
|}.

(** ** The data model *)

(** A row of the schedule table.  A game that has not been played has NaN in
    its two goal columns. *)
Record Game (num : Type) : Type := {
  Date : string;
  HomeTeam : string;
  AwayTeam : string;
  HomeGoals : num;
  AwayGoals : num;
}.
Arguments Date {num} _.
Arguments HomeTeam {num} _.
Arguments AwayTeam {num} _.
Arguments HomeGoals {num} _.
Arguments AwayGoals {num} _.

(** A value of the [team_records] dictionary. *)
Record TeamRecord : Type := {
  wins : Z;
  losses : Z;
  total_games : Z;
}.

(** A row of the [team_stats] table, indexed by team name. *)
Record TeamSummary (num : Type) : Type := {
  total_goals : num;
  total_assists : num;
  total_points : num;
  avg_points_per_game : num;
  total_powerplay_goals : num;
  total_powerplay_assists : num;
  total_penalty_minutes : num;
  avg_rank : num;
}.
Arguments total_points {num} _.
Arguments avg_rank {num} _.

(** The columns of the player-stats table that the pipeline reads. *)
Record Player (num : Type) : Type := {
  Name : string;
  Pos : string;
  Team : string;
  GP : num;
  G : num;
  A : num;
  PTS : num;
}.
Arguments Name {num} _.
Arguments Pos {num} _.
Arguments Team {num} _.
Arguments GP {num} _.
Arguments G {num} _.
Arguments A {num} _.
Arguments PTS {num} _.

(** A row of the table [calculate_player_probabilities] returns. *)
Record PlayerProb (num : Type) : Type := {
  pp_Name : string;
  pp_Pos : string;
  pp_GP : num;
  pp_G : num;
  pp_A : num;
  GoalProb : num;
  AssistProb : num;
}.
Arguments pp_Name {num} _.
Arguments pp_Pos {num} _.
Arguments pp_GP {num} _.
Arguments pp_G {num} _.
Arguments pp_A {num} _.
Arguments GoalProb {num} _.
Arguments AssistProb {num} _.

(** A row of a top-scorelines table.  The first column is the winner's
    score and the second the loser's: [HomeScore], [AwayScore] in
    [top_home_wins] and [AwayScore], [HomeScore] in [top_away_wins]; then the
    number of trials with that scoreline and its rounded percentage. *)
Record Scoreline (num : Type) : Type := {
  WinScore : Z;
  LoseScore : Z;
  Count : Z;
  Probability : num;
}.
Arguments WinScore {num} _.
Arguments LoseScore {num} _.
Arguments Count {num} _.
Arguments Probability {num} _.

(** ** The pipeline *)

(** [str(n)] and the [f"+{n}" if n > 0 else str(n)] rendering of odds. *)
Definition str (n : Z) : string := pretty n.

Definition render_odds (odds : Z) : string :=
  if (0 <? odds)%Z then "+" +:+ str odds else str odds.

(** [len(l)]. *)
Definition len {A} (l : list A) : Z := Z.of_nat (length l).

Section Pipeline.
Context {num : Type} `{!Float64 num}.

(** *** calculate_team_records *)

(** The dictionary is a finite map from team names; the order in which
    Python inserted the keys is not kept, and nothing below reads it. *)

Definition new_record : TeamRecord :=
  {| wins := 0; losses := 0; total_games := 0 |}.

Definition add_game (r : TeamRecord) : TeamRecord :=
  {| wins := wins r; losses := losses r; total_games := total_games r + 1 |}.
Definition add_win (r : TeamRecord) : TeamRecord :=
  {| wins := wins r + 1; losses := losses r; total_games := total_games r |}.
Definition add_loss (r : TeamRecord) : TeamRecord :=
  {| wins := wins r; losses := losses r + 1; total_games := total_games r |}.

(** The body of the inner loop, for one [(team, goals_for, goals_against)]. *)
Definition update_team (team_records : gmap string TeamRecord)
    (side : string * num * num) : gmap string TeamRecord :=
  let '(team, goals_for, goals_against) := side in
  let team_records :=
    match team_records !! team with
    | None => <[team := new_record]> team_records
    | Some _ => team_records
    end in
  let team_records := alter add_game team team_records in
  if fgt goals_for goals_against
  then alter add_win team team_records
  else alter add_loss team team_records.

(** The body of the outer loop, for one schedule row. *)
Definition update_row (team_records : gmap string TeamRecord)
    (row : Game num) : gmap string TeamRecord :=
  let home_team := HomeTeam row in
  let away_team := AwayTeam row in
  let home_goals := HomeGoals row in
  let away_goals := AwayGoals row in
  foldl update_team team_records
    [(home_team, home_goals, away_goals); (away_team, away_goals, home_goals)].

Definition calculate_team_records (schedule_df : list (Game num))
    : gmap string TeamRecord :=
  foldl update_row ∅ schedule_df.

(** *** predict_game_winner *)

(** [team_stats.loc[team]]. *)
Definition loc (team_stats : gmap string (TeamSummary num)) (team : string)
    : result (TeamSummary num) :=
  match team_stats !! team with
  | Some row => Ok row
  | None => Raise (KeyError team)
  end.

(** The record [dict.get] falls back to. *)
Definition default_record : TeamRecord :=
  {| wins := 0; losses := 0; total_games := 1 |}.

(** True division of two Python integers.  Python rounds the exact quotient
    once; dividing the two converted operands is the same value as long as
    both are below 2^53 in magnitude, as counters of games are. *)
Definition int_truediv (a b : Z) : result num :=
  if (b =? 0)%Z then Raise ZeroDivisionError
  else Ok (of_Z a / of_Z b)%fp.

Definition predict_game_winner (home_team away_team : string)
    (team_stats : gmap string (TeamSummary num))
    (team_records : gmap string TeamRecord)
    : result (string * string * string * num * num) :=
  home_stats ← loc team_stats home_team;
  away_stats ← loc team_stats away_team;
  let home_record := default default_record (team_records !! home_team) in
  let away_record := default default_record (team_records !! away_team) in
  home_rate ← int_truediv (wins home_record) (total_games home_record);
  let home_strength :=
    (total_points home_stats + avg_rank home_stats * of_Z 10
     + home_rate * of_Z 100)%fp in
  away_rate ← int_truediv (wins away_record) (total_games away_record);
  let away_strength :=
    (total_points away_stats + avg_rank away_stats * of_Z 10
     + away_rate * of_Z 100)%fp in
  let total_strength := (home_strength + away_strength)%fp in
  let home_prob := (home_strength / total_strength)%fp in
  let away_prob := (away_strength / total_strength)%fp in
  '(home_odds, away_odds) ←
    (if fgt home_prob away_prob then
       h ← to_int (of_Z 100 / home_prob)%fp;
       a ← to_int (of_Z 100 * ((of_Z 1 - away_prob) / away_prob))%fp;
       mret ((- h)%Z, a)
     else
       a ← to_int (of_Z 100 / away_prob)%fp;
       h ← to_int (of_Z 100 * ((of_Z 1 - home_prob) / home_prob))%fp;
       mret (h, (- a)%Z));
  let home_odds := render_odds home_odds in
  let away_odds := render_odds away_odds in
  let winner := if fgt home_prob away_prob then home_team else away_team in
  mret (winner, home_odds, away_odds, home_prob, away_prob).

(** *** Table helpers *)

(** [numpy.round(x, decimals)]: scale by a power of ten, [rint], scale
    back. *)
Definition round_nd (decimals : Z) (x : num) : num :=
  (rint (x * of_Z (10 ^ decimals)) / of_Z (10 ^ decimals))%fp.

(** A stable descending sort: among equal keys the earlier row stays
    first, which is the [keep='first'] order of [nlargest]. *)
Fixpoint insert_desc {A} (gtb : A → A → bool) (x : A) (l : list A) : list A :=
  match l with
  | [] => [x]
  | y :: ys => if gtb y x then y :: insert_desc gtb x ys else x :: y :: ys
  end.

Definition sort_desc {A} (gtb : A → A → bool) (l : list A) : list A :=
  foldr (insert_desc gtb) [] l.

(** [nlargest(n, column)] on an integer column. *)
Definition nlargest_int {A} (n : nat) (column : A → Z) (rows : list A) : list A :=
  take n (sort_desc (λ a b, (column b <? column a)%Z) rows).

(** [nlargest(n, column)] on a float column: the rows whose key is NaN
    come last, in their original order. *)
Definition nlargest {A} (n : nat) (column : A → num) (rows : list A) : list A :=
  take n (sort_desc (λ a b, fgt (column a) (column b))
                    (filter (λ r, isnan (column r) = false) rows)
          ++ filter (λ r, isnan (column r) = true) rows).

(** *** simulate_scores *)

Inductive Outcome : Type := HomeWin | AwayWin | Draw.

Definition classify (x : Z * Z) : Outcome :=
  if (x.2 <? x.1)%Z then HomeWin
  else if (x.1 <? x.2)%Z then AwayWin
  else Draw.

Definition is_HomeWin (x : Z * Z) : bool :=
  match classify x with HomeWin => true | _ => false end.
Definition is_AwayWin (x : Z * Z) : bool :=
  match classify x with AwayWin => true | _ => false end.

Definition pair_ltb (a b : Z * Z) : bool :=
  (a.1 <? b.1)%Z || ((a.1 =? b.1)%Z && (a.2 <? b.2)%Z).
Definition pair_eqb (a b : Z * Z) : bool :=
  (a.1 =? b.1)%Z && (a.2 =? b.2)%Z.

(** Insertion of a key into an increasing list of distinct keys. *)
Fixpoint insert_key (k : Z * Z) (l : list (Z * Z)) : list (Z * Z) :=
  match l with
  | [] => [k]
  | k' :: rest =>
      if pair_eqb k k' then l
      else if pair_ltb k k' then k :: l
      else k' :: insert_key k rest
  end.

Definition distinct_keys (keys : list (Z * Z)) : list (Z * Z) :=
  foldr insert_key [] keys.

(** [value_counts(columns, sort=False).reset_index(name='Count')]: one row
    per distinct key, in key order, with the number of rows that have that
    key. *)
Definition value_counts (keys : list (Z * Z)) : list (Z * Z * Z) :=
  (λ k, (k, len (filter (λ x, x = k) keys))) <$> distinct_keys keys.

Definition with_probability (total_simulations : Z) (row : Z * Z * Z)
    : Scoreline num :=
  {| WinScore := row.1.1; LoseScore := row.1.2; Count := row.2;
     Probability :=
       round_nd 2 (of_Z row.2 / of_Z total_simulations * of_Z 100)%fp |}.

Section Simulation.
(** [numpy.random.poisson] and the state of its generator. *)
Context {rng : Type} (poisson : num → rng → result (Z * rng)).

(** The sampling loop. *)
Fixpoint sample_scores (n : nat) (home_prob away_prob : num) (g : rng)
    : result (list (Z * Z) * rng) :=
  match n with
  | O => mret ([], g)
  | S n =>
      '(home_score, g) ← poisson (home_prob * of_Z 5)%fp g;
      '(away_score, g) ← poisson (away_prob * of_Z 5)%fp g;
      '(rest, g) ← sample_scores n home_prob away_prob g;
      mret ((home_score, away_score) :: rest, g)
  end.

(** Everything after the sampling loop.  With no trial at all the
    ['Result'] column cannot be added to the empty table and pandas
    raises [ValueError] (releases that accept it go on to divide by
    zero). *)
Definition summarise (score_simulations : list (Z * Z)) (num_simulations : Z)
    : result (list (Scoreline num) * list (Scoreline num) * num * num) :=
  match score_simulations with
  | [] => Raise ValueError
  | _ =>
      home_ratio ← int_truediv
        (len (filter (λ x, (x.2 =? 0)%Z && (0 <? x.1)%Z = true) score_simulations))
        num_simulations;
      let home_shutout_prob := (home_ratio * of_Z 100)%fp in
      away_ratio ← int_truediv
        (len (filter (λ x, (x.1 =? 0)%Z && (0 <? x.2)%Z = true) score_simulations))
        num_simulations;
      let away_shutout_prob := (away_ratio * of_Z 100)%fp in
      let top_home_wins :=
        nlargest_int 3 snd
          (value_counts (filter (λ x, is_HomeWin x = true) score_simulations)) in
      let top_away_wins :=
        nlargest_int 3 snd
          (value_counts
             ((λ x, (x.2, x.1)) <$> filter (λ x, is_AwayWin x = true) score_simulations)) in
      let total_simulations := len score_simulations in
      let top_home_wins := with_probability total_simulations <$> top_home_wins in
      let top_away_wins := with_probability total_simulations <$> top_away_wins in
      mret (top_home_wins, top_away_wins, home_shutout_prob, away_shutout_prob)
  end.

Definition simulate_scores (home_prob away_prob : num) (num_simulations : Z)
    (g : rng)
    : result (list (Scoreline num) * list (Scoreline num) * num * num * rng) :=
  '(score_simulations, g) ←
    sample_scores (Z.to_nat num_simulations) home_prob away_prob g;
  r ← summarise score_simulations num_simulations;
  mret (r, g).
End Simulation.

(** *** calculate_player_probabilities *)

(** [GP.replace(0, nan).fillna(1)]. *)
Definition clean_GP (gp : num) : num :=
  let gp := if feq gp (of_Z 0) then nan else gp in
  if isnan gp then of_Z 1 else gp.

(** [clip(upper=1.0)]; NaN is kept. *)
Definition clip_upper (x : num) : num :=
  if fgt x (of_Z 1) then of_Z 1 else x.

Definition probability_pct (count gp : num) : num :=
  round_nd 1 (clip_upper (count / gp) * of_Z 100)%fp.

(** A row of [team_players] once [GP], [GoalProb] and [AssistProb] are
    set, with the key [nlargest] reads. *)
Definition with_probabilities (p : Player num) : PlayerProb num * num :=
  let gp := clean_GP (GP p) in
  ({| pp_Name := Name p; pp_Pos := Pos p; pp_GP := gp; pp_G := G p;
      pp_A := A p; GoalProb := probability_pct (G p) gp;
      AssistProb := probability_pct (A p) gp |}, PTS p).

Definition calculate_player_probabilities (stats_df : list (Player num))
    (team : string) : list (PlayerProb num) :=
  let team_players := filter (λ p, Team p = team) stats_df in
  let team_players := with_probabilities <$> team_players in
  let top_players := fst <$> nlargest 3 snd team_players in
  top_players.

End Pipeline.

(** ** Vocabulary of the statements *)

(** What one side of a game does to a team's record. *)
Definition won (r : TeamRecord) : TeamRecord :=
  {| wins := wins r + 1; losses := losses r; total_games := total_games r + 1 |}.
Definition lost (r : TeamRecord) : TeamRecord :=
  {| wins := wins r; losses := losses r + 1; total_games := total_games r + 1 |}.
Definition credit (win : bool) (r : TeamRecord) : TeamRecord :=
  if win then won r else lost r.

(** The invariant of the dictionary under construction. *)
Definition consistent (team_records : gmap string TeamRecord) : Prop :=
  ∀ team r, team_records !! team = Some r → (wins r + losses r = total_games r)%Z.

(** Every stored record counts at least one game and no negative number of
    wins or losses. *)
Definition counted (team_records : gmap string TeamRecord) : Prop :=
  ∀ team r, team_records !! team = Some r →
    (0 ≤ wins r)%Z ∧ (0 ≤ losses r)%Z ∧ (1 ≤ total_games r)%Z.

Definition mk_game {num} (home_team away_team : string) (home_goals away_goals : num)
    : Game num :=
  {| Date := "2024-10-01"; HomeTeam := home_team; AwayTeam := away_team;
     HomeGoals := home_goals; AwayGoals := away_goals |}.

(** The record the strength model uses for a team. *)
Definition record_of (team_records : gmap string TeamRecord) (team : string)
    : TeamRecord :=
  default default_record (team_records !! team).

(** The strength formula of the specification:
    total_points + avg_rank*10 + (wins/total_games)*100. *)
Definition strength {num} `{!Float64 num} (stats : TeamSummary num)
    (record : TeamRecord) : num :=
  (total_points stats + avg_rank stats * of_Z 10
   + of_Z (wins record) / of_Z (total_games record) * of_Z 100)%fp.

(** The integer odds of the favourite and of the underdog, before the sign
    is applied, for win probabilities [p] and [q]. *)
Definition favourite_stake {num} `{!Float64 num} (p : num) : result Z :=
  to_int (of_Z 100 / p)%fp.
Definition underdog_payout {num} `{!Float64 num} (q : num) : result Z :=
  to_int (of_Z 100 * ((of_Z 1 - q) / q))%fp.

(** The integer odds the two branches of the conversion compute. *)
Definition odds_pair {num} `{!Float64 num} (home_prob away_prob : num) : result (Z * Z) :=
  if fgt home_prob away_prob then
    h ← favourite_stake home_prob;
    a ← underdog_payout away_prob;
    mret ((- h)%Z, a)
  else
    a ← favourite_stake away_prob;
    h ← underdog_payout home_prob;
    mret (h, (- a)%Z).


(** A team summary with the two columns the strength model reads. *)
Definition mk_summary {num} `{!Float64 num} (pts rnk : num) : TeamSummary num :=
  {| total_goals := of_Z 0; total_assists := of_Z 0; total_points := pts;
     avg_points_per_game := of_Z 0; total_powerplay_goals := of_Z 0;
     total_powerplay_assists := of_Z 0; total_penalty_minutes := of_Z 0;
     avg_rank := rnk |}.

(** A table of two teams, given total_points and avg_rank of each. *)
Definition two_teams {num} `{!Float64 num} (home_pts home_rnk away_pts away_rnk : Z)
    : gmap string (TeamSummary num) :=
  <["Ottawa" := mk_summary (of_Z home_pts) (of_Z home_rnk)]>
    (<["Sudbury" := mk_summary (of_Z away_pts) (of_Z away_rnk)]> ∅).


(** A sampler that ignores the rate and replays a tape of scores. *)
Definition replay {num} (lam : num) (tape : list Z) : result (Z * list Z) :=
  match tape with
  | [] => Raise ValueError
  | score :: tape => Ok (score, tape)
  end.


(** Two rows of a schedule: a game that was played and one that was not. *)
Definition played_game {num} `{!Float64 num} : Game num :=
  mk_game "Ottawa" "Sudbury" (of_Z 3) (of_Z 1).
Definition unplayed_game {num} `{!Float64 num} : Game num :=
  mk_game "Ottawa" "Kingston" nan nan.

(** ** The record tracker in closed form: vocabulary *)

(** The two sides of every row of a schedule, in the order the loops visit
    them: (team, goals_for, goals_against). *)
Definition sides {num} (schedule_df : list (Game num)) : list (string * num * num) :=
  schedule_df ≫= λ row,
    [(HomeTeam row, HomeGoals row, AwayGoals row);
     (AwayTeam row, AwayGoals row, HomeGoals row)].

(** The sides a team played, and the record that counts them. *)
Definition sides_of {num} (team : string) (schedule_df : list (Game num))
    : list (string * num * num) :=
  filter (λ s, s.1.1 = team) (sides schedule_df).

Definition tally {num} `{!Float64 num} (ss : list (string * num * num)) : TeamRecord :=
  {| wins := len (filter (λ s, fgt s.1.2 s.2 = true) ss);
     losses := len (filter (λ s, fgt s.1.2 s.2 = false) ss);
     total_games := len ss |}.

(** ** The aggregation of the player table *)

(** A row of the player-stats table with the further columns that
    [calculate_team_stats] reads. *)
Record StatsRow (num : Type) : Type := {
  player : Player num;
  PtsG : num;
  PPG : num;
  PPA : num;
  PIM : num;
  RNK : num;
}.
Arguments player {num} _.
Arguments PtsG {num} _.
Arguments PPG {num} _.
Arguments PPA {num} _.
Arguments PIM {num} _.
Arguments RNK {num} _.

Section Aggregation.
Context {num : Type} `{!Float64 num}.

(** One step of the grouped sum of pandas: Kahan's compensated addition,
    with the compensation reset when an infinity made it NaN. *)
Definition kahan_add (acc : num * num) (val : num) : num * num :=
  let '(sumx, compensation) := acc in
  let y := (val - compensation)%fp in
  let t := (sumx + y)%fp in
  let compensation := (t - sumx - y)%fp in
  let compensation := if isnan compensation then of_Z 0 else compensation in
  (t, compensation).

(** One value of a group: a NaN is passed over, any other value is added
    and counted. *)
Definition group_step (state : num * num * Z) (val : num) : num * num * Z :=
  if isnan val then state else (kahan_add state.1 val, (state.2 + 1)%Z).

(** The sum of the values of a group that are not NaN, and how many they
    are. *)
Definition group_add (values : list num) : num * Z :=
  let state := foldl group_step ((of_Z 0, of_Z 0), 0%Z) values in
  (state.1.1, state.2).

(** The aggregation ['sum']: 0 for a group without a value. *)
Definition group_sum (values : list num) : num := (group_add values).1.

(** The aggregation ['mean']: NaN for a group without a value. *)
Definition group_mean (values : list num) : num :=
  let '(sumx, nobs) := group_add values in
  if (nobs =? 0)%Z then nan else (sumx / of_Z nobs)%fp.

(** The rows of one team, in the order of the table. *)
Definition team_rows (team : string) (stats_df : list (StatsRow num))
    : list (StatsRow num) :=
  filter (λ row, Team (player row) = team) stats_df.

(** The row of [team_stats] for one group. *)
Definition aggregate (rows : list (StatsRow num)) : TeamSummary num :=
  {| total_goals := group_sum ((λ row, G (player row)) <$> rows);
     total_assists := group_sum ((λ row, A (player row)) <$> rows);
     total_points := group_sum ((λ row, PTS (player row)) <$> rows);
     avg_points_per_game := group_mean (PtsG <$> rows);
     total_powerplay_goals := group_sum (PPG <$> rows);
     total_powerplay_assists := group_sum (PPA <$> rows);
     total_penalty_minutes := group_sum (PIM <$> rows);
     avg_rank := group_mean (RNK <$> rows) |}.

(** [stats_df.groupby('Team').agg(...).rename(...)]: one row per team that
    occurs in the table. *)
Definition calculate_team_stats (stats_df : list (StatsRow num))
    : gmap string (TeamSummary num) :=
  foldr (λ row team_stats,
           let team := Team (player row) in
           <[team := aggregate (team_rows team stats_df)]> team_stats)
        ∅ stats_df.
End Aggregation.

Arguments total_goals {num} _.
Arguments total_assists {num} _.
Arguments avg_points_per_game {num} _.
Arguments total_powerplay_goals {num} _.
Arguments total_powerplay_assists {num} _.
Arguments total_penalty_minutes {num} _.

(** The values of a column that are not NaN. *)
Definition present {num} `{!Float64 num} (values : list num) : list num :=
  filter (λ v, isnan v = false) values.

(** [x] is the finite value [q]. *)
Definition is_Fin (x : xq) (q : Q) : Prop := ∃ v, x = Fin v ∧ (v == q)%Q.

(** The sum of a list of rationals. *)
Definition Qsum (qs : list Q) : Q := foldr Qplus 0%Q qs.

(** The scoreline of a row of a top-scoreline table, winner's score
    first. *)
Definition scoreline {num} (r : Scoreline num) : Z * Z := (WinScore r, LoseScore r).

(** A table of scorelines is ranked: its counts never increase from a row
    to a later one and no scoreline has two rows. *)
Definition ranked {num} (table : list (Scoreline num)) : Prop :=
  StronglySorted (λ r r', (Count r' ≤ Count r)%Z) table ∧
  NoDup (scoreline <$> table).

(** [y] does not rank above [x] in a descending order with NaN last. *)
Definition not_above (x y : xq) : Prop :=
  xq_gt y x = false ∧ (x = NaN → y = NaN).

(** ** The interactive caller *)

(** How a run of the caller ends: normally, with one of the exceptions of
    the pipeline, or with the [IndexError] of [iloc]. *)
Inductive run (A : Type) : Type :=
  | Finished (a : A)
  | Raised (e : exn)
  | IndexError.
Arguments Finished {A} a.
Arguments Raised {A} e.
Arguments IndexError {A}.

(** What is printed and handed to [write_to_text_file] for the selected
    game: the file name and the values the report interpolates.  The text
    itself, with its rendering of numbers and tables, is not modelled. *)
Record Report (num : Type) : Type := {
  rp_filename : string;
  rp_home_team : string;
  rp_away_team : string;
  rp_winner : string;
  rp_home_odds : string;
  rp_away_odds : string;
  rp_top_home_wins : list (Scoreline num);
  rp_top_away_wins : list (Scoreline num);
  rp_home_shutout_prob : num;
  rp_away_shutout_prob : num;
  rp_home_top_players : list (PlayerProb num);
  rp_away_top_players : list (PlayerProb num);
}.
Arguments rp_filename {num} _.
Arguments rp_home_team {num} _.
Arguments rp_away_team {num} _.
Arguments rp_winner {num} _.
Arguments rp_home_odds {num} _.
Arguments rp_away_odds {num} _.
Arguments rp_top_home_wins {num} _.
Arguments rp_top_away_wins {num} _.
Arguments rp_home_shutout_prob {num} _.
Arguments rp_away_shutout_prob {num} _.
Arguments rp_home_top_players {num} _.
Arguments rp_away_top_players {num} _.

(** [rows.iloc[k]]: a position counted from the start, or from the end when
    [k] is negative; [None] stands for [IndexError]. *)
Definition iloc {A} (rows : list A) (k : Z) : option A :=
  if (0 <=? k)%Z then rows !! Z.to_nat k
  else if (- len rows <=? k)%Z then rows !! Z.to_nat (len rows + k)
  else None.

(** [schedule_df[schedule_df['Date'] == selected_date]]: the rows of the
    date, each with its index label, which is its position in the schedule
    as [read_csv] numbers the rows. *)
Definition games_on_date {num} (selected_date : string)
    (schedule_df : list (Game num)) : list (nat * Game num) :=
  filter (λ ir, Date ir.2 = selected_date) (imap pair schedule_df).

Section Caller.
Context {num : Type} `{!Float64 num} {rng : Type}
  (poisson : num → rng → result (Z * rng)).

(** The part of [fetch_games_and_run_simulations] that follows the
    selection of a game. *)
Definition run_selected_game (selected_date : string)
    (stats_df : list (StatsRow num))
    (team_stats : gmap string (TeamSummary num))
    (team_records : gmap string TeamRecord)
    (selected_game : Game num) (g : rng) : run (Report num * rng) :=
  let home_team := HomeTeam selected_game in
  let away_team := AwayTeam selected_game in
  match predict_game_winner home_team away_team team_stats team_records with
  | Raise e => Raised e
  | Ok (winner, home_odds, away_odds, home_prob, away_prob) =>
      match simulate_scores poisson home_prob away_prob 100000 g with
      | Raise e => Raised e
      | Ok (top_home_wins, top_away_wins, home_shutout_prob, away_shutout_prob, g) =>
          let home_top_players :=
            calculate_player_probabilities (player <$> stats_df) home_team in
          let away_top_players :=
            calculate_player_probabilities (player <$> stats_df) away_team in
          let filename :=
            home_team +:+ "_vs_" +:+ away_team +:+ "_Report_"
              +:+ selected_date +:+ ".txt" in
          Finished
            ({| rp_filename := filename; rp_home_team := home_team;
                rp_away_team := away_team; rp_winner := winner;
                rp_home_odds := home_odds; rp_away_odds := away_odds;
                rp_top_home_wins := top_home_wins;
                rp_top_away_wins := top_away_wins;
                rp_home_shutout_prob := home_shutout_prob;
                rp_away_shutout_prob := away_shutout_prob;
                rp_home_top_players := home_top_players;
                rp_away_top_players := away_top_players |}, g)
      end
  end.

(** [entry] is what [int(input(...))] makes of the typed text, [None] when
    it is no integer literal.  The result holds the listing that was
    printed, one (index label, home team, away team) per game of the date,
    and the report; it is [None] when no game is found. *)
Definition fetch_games_and_run_simulations (selected_date : string)
    (stats_df : list (StatsRow num)) (schedule_df : list (Game num))
    (team_stats : gmap string (TeamSummary num))
    (team_records : gmap string TeamRecord)
    (entry : option Z) (g : rng)
    : run (option (list (nat * string * string) * Report num) * rng) :=
  let games := games_on_date selected_date schedule_df in
  match games with
  | [] => Finished (None, g)
  | _ =>
      let listing := (λ ir, (ir.1, HomeTeam ir.2, AwayTeam ir.2)) <$> games in
      match entry with
      | None => Raised ValueError
      | Some selected_game_index =>
          match iloc games selected_game_index with
          | None => IndexError
          | Some (_, selected_game) =>
              match run_selected_game selected_date stats_df team_stats
                      team_records selected_game g with
              | Finished (report, g) => Finished (Some (listing, report), g)
              | Raised e => Raised e
              | IndexError => IndexError
              end
          end
      end
  end.

End Caller.


(** A row of the schedule moved to another date. *)
Definition on_date {num} (date : string) (game : Game num) : Game num :=
  {| Date := date; HomeTeam := HomeTeam game; AwayTeam := AwayTeam game;
     HomeGoals := HomeGoals game; AwayGoals := AwayGoals game |}.


(** ** Properties of the record tracker *)

Section RecordTracker.
Context {num : Type} `{!Float64 num}.
Implicit Types (team_records : gmap string TeamRecord) (row : Game num).

Lemma update_team_lookup team_records team goals_for goals_against t :
  update_team team_records (team, goals_for, goals_against) !! t =
    if decide (team = t)
    then Some (credit (fgt goals_for goals_against)
                      (default new_record (team_records !! team)))
    else team_records !! t.
Proof.
  unfold update_team, credit.
  destruct (decide (team = t)) as [<-|Hne].
  - destruct (team_records !! team) as [r|] eqn:Hr;
      destruct (fgt goals_for goals_against); simpl;
      rewrite !lookup_alter_eq, ?lookup_insert_eq, ?Hr; reflexivity.
  - destruct (team_records !! team) as [r|] eqn:Hr;
      destruct (fgt goals_for goals_against);
      rewrite !lookup_alter_ne, ?lookup_insert_ne by done; reflexivity.
Qed.

Lemma update_row_unfold team_records row :
  update_row team_records row =
    update_team
      (update_team team_records (HomeTeam row, HomeGoals row, AwayGoals row))
      (AwayTeam row, AwayGoals row, HomeGoals row).
Proof. reflexivity. Qed.

(** A schedule row credits its home side, then its away side. *)
Lemma update_row_lookup team_records row t :
  update_row team_records row !! t =
    let after_home :=
      update_team team_records (HomeTeam row, HomeGoals row, AwayGoals row) in
    if decide (AwayTeam row = t)
    then Some (credit (fgt (AwayGoals row) (HomeGoals row))
                      (default new_record (after_home !! AwayTeam row)))
    else after_home !! t.
Proof. rewrite update_row_unfold. apply update_team_lookup. Qed.

Lemma update_row_home team_records row :
  HomeTeam row ≠ AwayTeam row →
  update_row team_records row !! HomeTeam row =
    Some (credit (fgt (HomeGoals row) (AwayGoals row))
                 (default new_record (team_records !! HomeTeam row))).
Proof.
  intros Hne. rewrite update_row_lookup; cbv zeta.
  rewrite decide_False by done.
  rewrite update_team_lookup. by rewrite decide_True.
Qed.

Lemma update_row_away team_records row :
  HomeTeam row ≠ AwayTeam row →
  update_row team_records row !! AwayTeam row =
    Some (credit (fgt (AwayGoals row) (HomeGoals row))
                 (default new_record (team_records !! AwayTeam row))).
Proof.
  intros Hne. rewrite update_row_lookup; cbv zeta.
  rewrite decide_True by done.
  rewrite update_team_lookup. by rewrite decide_False.
Qed.

(** A team that plays itself is credited twice on the one record. *)
Lemma update_row_same team_records row :
  HomeTeam row = AwayTeam row →
  update_row team_records row !! HomeTeam row =
    Some (credit (fgt (AwayGoals row) (HomeGoals row))
            (credit (fgt (HomeGoals row) (AwayGoals row))
               (default new_record (team_records !! HomeTeam row)))).
Proof.
  intros Heq. rewrite update_row_lookup; cbv zeta.
  rewrite decide_True by done.
  rewrite update_team_lookup. by rewrite decide_True.
Qed.

Lemma update_row_other team_records row t :
  t ≠ HomeTeam row → t ≠ AwayTeam row →
  update_row team_records row !! t = team_records !! t.
Proof.
  intros Hh Ha. rewrite update_row_lookup; cbv zeta.
  rewrite decide_False by done.
  rewrite update_team_lookup. by rewrite decide_False.
Qed.

Lemma calculate_team_records_middle (pre post : list (Game num)) row :
  calculate_team_records (pre ++ row :: post) =
    foldl update_row (calculate_team_records (pre ++ [row])) post.
Proof.
  unfold calculate_team_records.
  by rewrite (cons_middle row pre post), app_assoc, (foldl_app _ (pre ++ [row])).
Qed.

Lemma calculate_team_records_snoc (schedule_df : list (Game num)) row :
  calculate_team_records (schedule_df ++ [row]) =
    update_row (calculate_team_records schedule_df) row.
Proof. unfold calculate_team_records. by rewrite foldl_app. Qed.

Lemma credit_consistent win r :
  (wins r + losses r = total_games r)%Z →
  (wins (credit win r) + losses (credit win r) = total_games (credit win r))%Z.
Proof. destruct win; simpl; lia. Qed.

Lemma update_team_consistent team_records side :
  consistent team_records → consistent (update_team team_records side).
Proof.
  destruct side as [[team gf] ga]. intros Hc t r.
  rewrite update_team_lookup. case_decide as Ht.
  - intros [= <-]. apply credit_consistent.
    destruct (team_records !! team) as [r0|] eqn:Hr0; simpl; [eauto | lia].
  - apply Hc.
Qed.

Lemma update_row_consistent team_records row :
  consistent team_records → consistent (update_row team_records row).
Proof.
  intros Hc. rewrite update_row_unfold.
  by do 2 apply update_team_consistent.
Qed.

Lemma foldl_update_row_consistent (schedule_df : list (Game num)) team_records :
  consistent team_records → consistent (foldl update_row team_records schedule_df).
Proof.
  revert team_records.
  induction schedule_df as [|row rows IH]; intros team_records Hc; simpl.
  - exact Hc.
  - apply IH, update_row_consistent, Hc.
Qed.

Lemma team_records_consistent (schedule_df : list (Game num)) team r :
  calculate_team_records schedule_df !! team = Some r →
  (wins r + losses r = total_games r)%Z.
Proof.
  apply (foldl_update_row_consistent schedule_df ∅).
  intros t r0. by rewrite lookup_empty.
Qed.

(** C9. For every schedule and every team in the dictionary that
    [calculate_team_records] returns, wins plus losses equals
    total_games.  It holds in every arithmetic, whatever the goal
    columns contain. *)
Theorem team_records_wins_plus_losses (schedule_df : list (Game num)) team r :
  calculate_team_records schedule_df !! team = Some r →
  (wins r + losses r = total_games r)%Z.
Proof.
  apply (foldl_update_row_consistent schedule_df ∅).
  intros t r0. by rewrite lookup_empty.
Qed.

Lemma update_team_counted team_records side :
  counted team_records → counted (update_team team_records side).
Proof.
  destruct side as [[team gf] ga]. intros Hc t r.
  rewrite update_team_lookup. case_decide as Ht; [|apply Hc].
  intros [= <-].
  destruct (team_records !! team) as [r0|] eqn:Hr0; simpl.
  - destruct (Hc _ _ Hr0) as (? & ? & ?). destruct (fgt gf ga); simpl; lia.
  - destruct (fgt gf ga); simpl; lia.
Qed.

Lemma foldl_update_row_counted (schedule_df : list (Game num)) team_records :
  counted team_records → counted (foldl update_row team_records schedule_df).
Proof.
  revert team_records.
  induction schedule_df as [|row rows IH]; intros team_records Hc; simpl.
  - exact Hc.
  - apply IH. rewrite update_row_unfold. by do 2 apply update_team_counted.
Qed.

(** X1. The record the strength model reads for a team, out of the
    dictionary [calculate_team_records] built, always has at least one game
    and between zero and total_games wins: the division wins / total_games
    is defined and the win rate lies between 0 and 1, whether or not the
    team appears in the schedule. *)
Theorem win_rate_well_defined (schedule_df : list (Game num)) team :
  let r := record_of (calculate_team_records schedule_df) team in
  (1 ≤ total_games r)%Z ∧ (0 ≤ wins r ≤ total_games r)%Z.
Proof.
  cbv zeta. unfold record_of.
  destruct (calculate_team_records schedule_df !! team) as [r|] eqn:Hr; simpl.
  - pose proof (team_records_consistent schedule_df team r Hr) as Hsum.
    assert (counted (calculate_team_records schedule_df)) as Hc.
    { apply foldl_update_row_counted. intros t r0. by rewrite lookup_empty. }
    destruct (Hc _ _ Hr) as (? & ? & ?). lia.
  - lia.
Qed.
End RecordTracker.

(** *** Completed and unplayed games, in exact arithmetic *)

Lemma xq_gt_Fin (a b : Q) : xq_gt (Fin a) (Fin b) = true ↔ (b < a)%Q.
Proof.
  simpl. rewrite Qgt_alt. destruct (a ?= b)%Q; split; congruence.
Qed.

Lemma xq_gt_Fin_false (a b : Q) : xq_gt (Fin a) (Fin b) = false ↔ (a <= b)%Q.
Proof.
  simpl. rewrite Qle_alt. destruct (a ?= b)%Q; split; congruence.
Qed.

Lemma xq_gt_NaN_l (x : xq) : xq_gt NaN x = false.
Proof. reflexivity. Qed.

Lemma xq_gt_NaN_r (x : xq) : xq_gt x NaN = false.
Proof. by destruct x. Qed.

(** C3. A completed game somewhere in the schedule: the state of the
    dictionary right after its row is the state right before it, with the
    side that scored strictly more goals credited one win and the other one
    loss, with both sides credited one loss when the scores are equal, and
    with total_games one higher for each side ([won] and [lost] both add one
    game).  No other team's record changes.  When the row names one team
    twice, the two credits land on the same record. *)
Theorem completed_game_credit (pre post : list (Game xq)) (date h a : string)
    (hg ag : Q) :
  let row := {| Date := date; HomeTeam := h; AwayTeam := a;
                HomeGoals := Fin hg; AwayGoals := Fin ag |} in
  let before := calculate_team_records pre in
  let after := calculate_team_records (pre ++ [row]) in
  let old t := default new_record (before !! t) in
  calculate_team_records (pre ++ row :: post) = foldl update_row after post ∧
  (∀ t, t ≠ h → t ≠ a → after !! t = before !! t) ∧
  (h ≠ a →
     ((ag < hg)%Q →
        after !! h = Some (won (old h)) ∧ after !! a = Some (lost (old a))) ∧
     ((hg < ag)%Q →
        after !! a = Some (won (old a)) ∧ after !! h = Some (lost (old h))) ∧
     ((hg == ag)%Q →
        after !! h = Some (lost (old h)) ∧ after !! a = Some (lost (old a)))) ∧
  (h = a →
     ((hg == ag)%Q → after !! h = Some (lost (lost (old h)))) ∧
     (¬ (hg == ag)%Q →
        total_games <$> after !! h = Some (total_games (old h) + 2)%Z ∧
        wins <$> after !! h = Some (wins (old h) + 1)%Z ∧
        losses <$> after !! h = Some (losses (old h) + 1)%Z)).
Proof.
  intros row before after old.
  split; [apply calculate_team_records_middle|].
  subst after. rewrite calculate_team_records_snoc. fold before.
  assert (Hgt : ∀ x y : Q, (y < x)%Q →
            xq_gt (Fin x) (Fin y) = true ∧ xq_gt (Fin y) (Fin x) = false).
  { intros x y Hxy. split; [by apply xq_gt_Fin|].
    apply xq_gt_Fin_false. by apply Qlt_le_weak. }
  assert (Heq : ∀ x y : Q, (x == y)%Q →
            xq_gt (Fin x) (Fin y) = false ∧ xq_gt (Fin y) (Fin x) = false).
  { intros x y Hxy. split; apply xq_gt_Fin_false; rewrite Hxy; apply Qle_refl. }
  split; [intros t Hh Ha; by apply update_row_other|].
  split.
  - intros Hne.
    pose proof (update_row_home before row Hne) as Hhome.
    pose proof (update_row_away before row Hne) as Haway.
    cbn [row HomeTeam AwayTeam HomeGoals AwayGoals] in Hhome, Haway.
    change (@fgt xq _) with xq_gt in Hhome, Haway.
    split; [|split]; intros Hcmp.
    + destruct (Hgt hg ag Hcmp) as [E1 E2]. by rewrite E1 in Hhome; rewrite E2 in Haway.
    + destruct (Hgt ag hg Hcmp) as [E1 E2]. by rewrite E2 in Hhome; rewrite E1 in Haway.
    + destruct (Heq hg ag Hcmp) as [E1 E2]. by rewrite E1 in Hhome; rewrite E2 in Haway.
  - intros Hsame.
    pose proof (update_row_same before row Hsame) as Hrow.
    cbn [row HomeTeam AwayTeam HomeGoals AwayGoals] in Hrow.
    change (@fgt xq _) with xq_gt in Hrow.
    split; intros Hcmp.
    + destruct (Heq hg ag Hcmp) as [E1 E2]. by rewrite E1, E2 in Hrow.
    + rewrite Hrow. clear Hrow. subst old. cbv beta.
      generalize (default new_record (before !! h)). intros r.
      destruct (Qlt_le_dec ag hg) as [Hlt|Hle].
      * destruct (Hgt hg ag Hlt) as [-> ->]. simpl. repeat split; f_equal; lia.
      * assert (Hlt : (hg < ag)%Q).
        { apply Qle_lt_or_eq in Hle as [Hlt|Heq']; [done|]. by destruct Hcmp. }
        destruct (Hgt ag hg Hlt) as [-> ->]. simpl. repeat split; f_equal; lia.
Qed.

(** C4, as the code has it.  A row whose HomeGoals or AwayGoals is NaN is not
    skipped: no comparison with NaN holds, so each side takes the [else]
    branch and is credited one game and one loss; wins do not change, and no
    other team's record changes. *)
Theorem unplayed_game_credit (pre post : list (Game xq)) (date h a : string)
    (hg ag : xq) :
  hg = NaN ∨ ag = NaN →
  let row := {| Date := date; HomeTeam := h; AwayTeam := a;
                HomeGoals := hg; AwayGoals := ag |} in
  let before := calculate_team_records pre in
  let after := calculate_team_records (pre ++ [row]) in
  let old t := default new_record (before !! t) in
  calculate_team_records (pre ++ row :: post) = foldl update_row after post ∧
  (∀ t, t ≠ h → t ≠ a → after !! t = before !! t) ∧
  (h ≠ a → after !! h = Some (lost (old h)) ∧ after !! a = Some (lost (old a))) ∧
  (h = a → after !! h = Some (lost (lost (old h)))).
Proof.
  intros Hnan row before after old.
  split; [apply calculate_team_records_middle|].
  subst after. rewrite calculate_team_records_snoc. fold before.
  assert (xq_gt hg ag = false ∧ xq_gt ag hg = false) as [E1 E2].
  { destruct Hnan as [-> | ->]; split;
      apply xq_gt_NaN_l || apply xq_gt_NaN_r. }
  split; [intros t Hh Ha; by apply update_row_other|].
  split.
  - intros Hne.
    pose proof (update_row_home before row Hne) as Hhome.
    pose proof (update_row_away before row Hne) as Haway.
    cbn [row HomeTeam AwayTeam HomeGoals AwayGoals] in Hhome, Haway.
    change (@fgt xq _) with xq_gt in Hhome, Haway.
    by rewrite E1 in Hhome; rewrite E2 in Haway.
  - intros Hsame.
    pose proof (update_row_same before row Hsame) as Hrow.
    cbn [row HomeTeam AwayTeam HomeGoals AwayGoals] in Hrow.
    change (@fgt xq _) with xq_gt in Hrow.
    by rewrite E1, E2 in Hrow.
Qed.

Lemma unplayed_game_credit_witness :
  calculate_team_records (num:=xq) ([played_game] ++ [unplayed_game]) !! "Ottawa"
  = Some (lost (default new_record
                  (calculate_team_records (num:=xq) [played_game] !! "Ottawa"))).
Proof.
  destruct (unplayed_game_credit [played_game] [] "2024-10-01" "Ottawa" "Kingston"
              NaN NaN) as (_ & _ & H & _).
  - left. reflexivity.
  - apply H. discriminate.
Defined.

(** C4, as the specification has it, fails: after a played game and an
    unplayed one, Ottawa has two games and one loss, in exact arithmetic and
    in binary64 alike. *)
Lemma unplayed_game_not_skipped :
  calculate_team_records (num:=xq) [played_game] !! "Ottawa"
    = Some {| wins := 1; losses := 0; total_games := 1 |} ∧
  calculate_team_records (num:=xq) [played_game; unplayed_game] !! "Ottawa"
    = Some {| wins := 1; losses := 1; total_games := 2 |} ∧
  calculate_team_records (num:=b64) [played_game] !! "Ottawa"
    = Some {| wins := 1; losses := 0; total_games := 1 |} ∧
  calculate_team_records (num:=b64) [played_game; unplayed_game] !! "Ottawa"
    = Some {| wins := 1; losses := 1; total_games := 2 |} ∧
  calculate_team_records (num:=b64) [played_game; unplayed_game] !! "Kingston"
    = Some {| wins := 0; losses := 1; total_games := 1 |}.
Proof. repeat split; vm_compute; reflexivity. Qed.

Lemma team_records_wins_plus_losses_witness :
  calculate_team_records (num:=b64) [played_game; unplayed_game] !! "Ottawa"
    = Some {| wins := 1; losses := 1; total_games := 2 |} ∧
  (1 + 1 = 2)%Z.
Proof.
  split; [vm_compute; reflexivity|].
  apply (team_records_wins_plus_losses (num:=b64) [played_game; unplayed_game]
           "Ottawa" {| wins := 1; losses := 1; total_games := 2 |}).
  vm_compute; reflexivity.
Defined.

Lemma completed_game_credit_witness :
  calculate_team_records (num:=xq) ([] ++ [played_game]) !! "Ottawa"
    = Some (won new_record) ∧
  calculate_team_records (num:=xq) ([] ++ [played_game]) !! "Sudbury"
    = Some (lost new_record).
Proof.
  destruct (completed_game_credit [] [] "2024-10-01" "Ottawa" "Sudbury" 3 1)
    as (_ & _ & H & _).
  destruct (H ltac:(discriminate)) as (Hwin & _ & _).
  apply Hwin. reflexivity.
Defined.

(** ** Properties of the strength model *)

Lemma bind_Ok_inv {A B} (m : result A) (f : A → result B) (b : B) :
  m ≫= f = Ok b → ∃ a, m = Ok a ∧ f a = Ok b.
Proof. destruct m as [a|e]; [eauto | discriminate]. Qed.


Section StrengthModel.
Context {num : Type} `{!Float64 num}.
Implicit Types (team_stats : gmap string (TeamSummary num))
  (team_records : gmap string TeamRecord).

Lemma int_truediv_Ok (a b : Z) (x : num) :
  int_truediv a b = Ok x ↔ b ≠ 0%Z ∧ x = (of_Z a / of_Z b)%fp.
Proof.
  unfold int_truediv. destruct (Z.eqb_spec b 0) as [->|Hb].
  - split; [discriminate | intros [[] _]; reflexivity].
  - split; [intros [= <-]; split; [done|reflexivity] | intros [_ ->]; done].
Qed.

(** [predict_game_winner], once both teams are found and both win rates are
    defined, as a function of the two strengths. *)
Lemma predict_game_winner_unfold home_team away_team team_stats team_records
    home_stats away_stats :
  team_stats !! home_team = Some home_stats →
  team_stats !! away_team = Some away_stats →
  total_games (record_of team_records home_team) ≠ 0%Z →
  total_games (record_of team_records away_team) ≠ 0%Z →
  let home_strength := strength home_stats (record_of team_records home_team) in
  let away_strength := strength away_stats (record_of team_records away_team) in
  let home_prob := (home_strength / (home_strength + away_strength))%fp in
  let away_prob := (away_strength / (home_strength + away_strength))%fp in
  predict_game_winner home_team away_team team_stats team_records =
    '(home_odds, away_odds) ← odds_pair home_prob away_prob;
    mret (if fgt home_prob away_prob then home_team else away_team,
          render_odds home_odds, render_odds away_odds, home_prob, away_prob).
Proof.
  intros Hh Ha Hgh Hga. cbv zeta.
  unfold predict_game_winner, loc, int_truediv, record_of in *.
  rewrite Hh, Ha. cbn [mbind result_bind].
  rewrite (proj2 (Z.eqb_neq _ _) Hgh). cbn [mbind result_bind].
  rewrite (proj2 (Z.eqb_neq _ _) Hga). cbn [mbind result_bind].
  reflexivity.
Qed.

(** Which exception a failed lookup or a zero game count raises. *)
Lemma predict_game_winner_raises home_team away_team team_stats team_records :
  (team_stats !! home_team = None →
   predict_game_winner home_team away_team team_stats team_records
   = Raise (KeyError home_team)) ∧
  (is_Some (team_stats !! home_team) → team_stats !! away_team = None →
   predict_game_winner home_team away_team team_stats team_records
   = Raise (KeyError away_team)) ∧
  (is_Some (team_stats !! home_team) → is_Some (team_stats !! away_team) →
   total_games (record_of team_records home_team) = 0%Z
   ∨ total_games (record_of team_records away_team) = 0%Z →
   predict_game_winner home_team away_team team_stats team_records
   = Raise ZeroDivisionError).
Proof.
  unfold predict_game_winner, loc, int_truediv, record_of.
  split; [|split].
  - intros ->. reflexivity.
  - intros [hst ->] ->. reflexivity.
  - intros [hst ->] [ast ->] Hz. cbn [mbind result_bind].
    destruct (Z.eqb_spec (total_games (default default_record
                (team_records !! home_team))) 0) as [_|Hh]; [reflexivity|].
    cbn [mbind result_bind].
    destruct Hz as [Hz|Hz]; [done|]. rewrite Hz. reflexivity.
Qed.
End StrengthModel.





(** *** Exact arithmetic *)

Section ExactArithmetic.
Local Open Scope Q_scope.

Lemma xq_div_Fin (a b : Q) : ¬ (b == 0)%Q → xq_div (Fin a) (Fin b) = Fin (a / b).
Proof.
  intros Hb. unfold xq_div.
  destruct (b ?= 0)%Q eqn:E; try reflexivity.
  apply Qeq_alt in E. contradiction.
Qed.

Lemma xq_div_Fin_zero (a b : Q) :
  (b == 0)%Q → xq_div (Fin a) (Fin b) = xq_signed_inf (a ?= 0)%Q.
Proof. intros Hb. unfold xq_div. apply Qeq_alt in Hb. by rewrite Hb. Qed.

Lemma Qtrunc_comp (x y : Q) : (x == y)%Q → Qtrunc x = Qtrunc y.
Proof.
  intros Hxy. unfold Qtrunc. rewrite (Qleb_comp 0 0 (Qeq_refl 0) x y Hxy).
  destruct (Qle_bool 0 y); [by apply Qfloor_comp | by apply Qceiling_comp].
Qed.




Lemma favourite_stake_Fin (p : Q) :
  ¬ (p == 0)%Q → favourite_stake (Fin p) = Ok (Qtrunc (100 / p)).
Proof.
  intros Hp. unfold favourite_stake. cbn [to_int fdiv of_Z xq_float64].
  by rewrite xq_div_Fin.
Qed.

Lemma underdog_payout_Fin (q : Q) :
  ¬ (q == 0)%Q → underdog_payout (Fin q) = Ok (Qtrunc (100 * ((1 - q) / q))).
Proof.
  intros Hq. unfold underdog_payout. cbn [to_int fdiv fsub fmul of_Z xq_float64].
  unfold xq_sub. cbn [xq_opp xq_add]. by rewrite xq_div_Fin.
Qed.

Lemma favourite_stake_zero (p : Q) :
  (p == 0)%Q → favourite_stake (Fin p) = Raise OverflowError.
Proof.
  intros Hp. unfold favourite_stake. cbn [to_int fdiv of_Z xq_float64].
  by rewrite xq_div_Fin_zero.
Qed.



Lemma underdog_payout_zero (q : Q) :
  q == 0 → underdog_payout (Fin q) = Raise OverflowError.
Proof.
  intros Hq. unfold underdog_payout. cbn [to_int fdiv fsub fmul of_Z xq_float64].
  unfold xq_sub. cbn [xq_opp xq_add]. rewrite xq_div_Fin_zero by done.
  assert ((inject_Z 1 + - q ?= 0) = Gt) as ->.
  { apply Qgt_alt. change (inject_Z 1) with 1. lra. }
  reflexivity.
Qed.

(** The integer odds for two finite probabilities. *)
Lemma odds_pair_Fin (p q : Q) (x y : Z) :
  odds_pair (Fin p) (Fin q) = Ok (x, y) ↔
    ¬ p == 0 ∧ ¬ q == 0 ∧
    ((q < p ∧ x = (- Qtrunc (100 / p))%Z ∧ y = Qtrunc (100 * ((1 - q) / q))) ∨
     (p <= q ∧ y = (- Qtrunc (100 / q))%Z ∧ x = Qtrunc (100 * ((1 - p) / p)))).
Proof.
  unfold odds_pair. cbn [fgt xq_float64].
  destruct (Qeq_dec p 0) as [Hp|Hp], (Qeq_dec q 0) as [Hq|Hq];
    destruct (xq_gt (Fin p) (Fin q)) eqn:Hgt;
    rewrite ?(favourite_stake_zero _ Hp), ?(favourite_stake_zero _ Hq),
      ?(underdog_payout_zero _ Hp), ?(underdog_payout_zero _ Hq),
      ?(favourite_stake_Fin _ Hp), ?(favourite_stake_Fin _ Hq),
      ?(underdog_payout_Fin _ Hp), ?(underdog_payout_Fin _ Hq);
    cbn [mbind result_bind mret result_ret];
    try (split; [discriminate | intros (? & ? & _); contradiction]).
  - apply xq_gt_Fin in Hgt. split.
    + intros [= <- <-]. split; [done|split; [done|]]. left. done.
    + intros (_ & _ & [(_ & -> & ->) | (Hle & _)]); [done | lra].
  - apply xq_gt_Fin_false in Hgt. split.
    + intros [= <- <-]. split; [done|split; [done|]]. right. done.
    + intros (_ & _ & [(Hlt & _) | (_ & -> & ->)]); [lra | done].
Qed.

Lemma odds_pair_home_favourite (p q : Q) :
  ¬ q == 0 → q < p → ¬ p == 0 →
  odds_pair (Fin p) (Fin q)
  = Ok ((- Qtrunc (100 / p))%Z, Qtrunc (100 * ((1 - q) / q))).
Proof. intros Hq Hlt Hp. apply odds_pair_Fin. eauto 10. Qed.

Lemma odds_pair_away_favourite (p q : Q) :
  ¬ p == 0 → p <= q → ¬ q == 0 →
  odds_pair (Fin p) (Fin q)
  = Ok (Qtrunc (100 * ((1 - p) / p)), (- Qtrunc (100 / q))%Z).
Proof. intros Hp Hle Hq. apply odds_pair_Fin. eauto 10. Qed.

(** Whenever the odds can be computed, both strengths are finite and their
    sum is not zero. *)
Lemma odds_pair_Ok_finite (hs as_ : xq) (x y : Z) :
  odds_pair (hs / (hs + as_))%fp (as_ / (hs + as_))%fp = Ok (x, y) →
  ∃ h a, hs = Fin h ∧ as_ = Fin a ∧ ¬ h + a == 0.
Proof.
  destruct hs as [h| | |], as_ as [a| | |]; try (vm_compute; discriminate).
  intros Hok. exists h, a. split; [done|split; [done|]]. intros Hz.
  revert Hok. cbn [fadd fdiv xq_float64 xq_add].
  rewrite !xq_div_Fin_zero by done.
  destruct (h ?= 0), (a ?= 0); vm_compute; discriminate.
Qed.




Implicit Types (team_stats : gmap string (TeamSummary xq))
  (team_records : gmap string TeamRecord).

(** What a successful call returns, in terms of the two strengths. *)
Lemma predict_game_winner_Ok home_team away_team team_stats team_records
    home_stats away_stats winner home_odds away_odds home_prob away_prob :
  team_stats !! home_team = Some home_stats →
  team_stats !! away_team = Some away_stats →
  predict_game_winner home_team away_team team_stats team_records
    = Ok (winner, home_odds, away_odds, home_prob, away_prob) →
  ∃ h a x y,
    strength home_stats (record_of team_records home_team) = Fin h ∧
    strength away_stats (record_of team_records away_team) = Fin a ∧
    ¬ h + a == 0 ∧
    home_prob = Fin (h / (h + a)) ∧ away_prob = Fin (a / (h + a)) ∧
    odds_pair home_prob away_prob = Ok (x, y) ∧
    home_odds = render_odds x ∧ away_odds = render_odds y ∧
    winner = (if xq_gt home_prob away_prob then home_team else away_team).
Proof.
  intros Hh Ha Hok.
  destruct (decide (total_games (record_of team_records home_team) = 0%Z)) as [Hz|Hgh].
  { rewrite (proj2 (proj2 (predict_game_winner_raises _ _ _ _))) in Hok; eauto.
    discriminate. }
  destruct (decide (total_games (record_of team_records away_team) = 0%Z)) as [Hz|Hga].
  { rewrite (proj2 (proj2 (predict_game_winner_raises _ _ _ _))) in Hok; eauto.
    discriminate. }
  pose proof (predict_game_winner_unfold _ _ _ _ _ _ Hh Ha Hgh Hga) as Hun.
  cbv zeta in Hun.
  remember (strength home_stats (record_of team_records home_team)) as hs eqn:Ehs.
  remember (strength away_stats (record_of team_records away_team)) as as_ eqn:Eas.
  rewrite Hun in Hok. clear Hun.
  apply bind_Ok_inv in Hok as ([x y] & Hodds & Hret).
  injection Hret as <- <- <- <- <-.
  destruct (odds_pair_Ok_finite _ _ _ _ Hodds) as (h & a & -> & -> & Hsum).
  exists h, a, x, y.
  cbn [fadd fdiv fgt xq_float64 xq_add] in Hodds |- *.
  rewrite !xq_div_Fin in Hodds |- * by done.
  repeat split; done.
Qed.

Lemma predict_game_winner_Ok_present home_team away_team team_stats team_records r :
  predict_game_winner home_team away_team team_stats team_records = Ok r →
  ∃ home_stats away_stats,
    team_stats !! home_team = Some home_stats ∧
    team_stats !! away_team = Some away_stats.
Proof.
  intros Hok.
  destruct (predict_game_winner_raises home_team away_team team_stats team_records)
    as (Hnh & Hna & _).
  destruct (team_stats !! home_team) as [hst|] eqn:Hh;
    [|rewrite Hnh in Hok; done].
  destruct (team_stats !! away_team) as [ast|] eqn:Ha;
    [|rewrite Hna in Hok; eauto; done].
  eauto.
Qed.









End ExactArithmetic.

(** *** Lookup failures *)

Lemma xq_to_int_raises (x : xq) (e : exn) :
  to_int x = Raise e → is_LookupError e = false.
Proof. destruct x; simpl; intros [= <-]; reflexivity. Qed.


Section LookupFailure.
Context {num : Type} `{!Float64 num}.
Implicit Types (team_stats : gmap string (TeamSummary num))
  (team_records : gmap string TeamRecord).



End LookupFailure.


(** The win rate 0/1 adds nothing to the strength, in either arithmetic. *)
Lemma zero_win_rate_contribution :
  (of_Z 0 / of_Z 1 * of_Z 100)%fp = Fin 0 ∧
  (of_Z 0 / of_Z 1 * of_Z 100)%fp = S754_zero false.
Proof. split; reflexivity. Qed.

(** ** Rounding *)

Section Rounding.
Local Open Scope Q_scope.



End Rounding.

(** ** Properties of the table helpers *)

Section Tables.
Context {num : Type} `{!Float64 num}.

Lemma insert_desc_Permutation {A} (gtb : A → A → bool) (x : A) (l : list A) :
  insert_desc gtb x l ≡ₚ x :: l.
Proof.
  induction l as [|y ys IH]; simpl; [done|].
  destruct (gtb y x); [|done].
  rewrite IH. apply Permutation_swap.
Qed.

Lemma sort_desc_Permutation {A} (gtb : A → A → bool) (l : list A) :
  sort_desc gtb l ≡ₚ l.
Proof.
  induction l as [|x xs IH]; simpl; [done|].
  rewrite insert_desc_Permutation. by rewrite IH.
Qed.

Lemma nan_last_Permutation {A} (column : A → num) (rows : list A) :
  filter (λ r, isnan (column r) = false) rows
    ++ filter (λ r, isnan (column r) = true) rows ≡ₚ rows.
Proof.
  induction rows as [|r rows IH]; [done|].
  rewrite !filter_cons. destruct (isnan (column r)) eqn:E.
  - rewrite decide_False, decide_True by done.
    rewrite <- Permutation_middle. by rewrite IH.
  - rewrite decide_True, decide_False by done. simpl. by rewrite IH.
Qed.


Lemma nlargest_spec {A} (n : nat) (column : A → num) (rows : list A) :
  length (nlargest n column rows) = min n (length rows) ∧
  ∀ r, r ∈ nlargest n column rows → r ∈ rows.
Proof.
  unfold nlargest. split.
  - by rewrite length_take, sort_desc_Permutation, nan_last_Permutation.
  - intros r Hr. apply subseteq_take in Hr.
    by rewrite sort_desc_Permutation, nan_last_Permutation in Hr.
Qed.
End Tables.

(** ** Properties of the player projector *)

Section PlayerProjector.
Local Open Scope Q_scope.




End PlayerProjector.

(** ** Properties of the score simulator *)

Lemma pair_eqb_eq (a b : Z * Z) : pair_eqb a b = true ↔ a = b.
Proof.
  destruct a as [a1 a2], b as [b1 b2]. unfold pair_eqb. simpl.
  rewrite andb_true_iff, !Z.eqb_eq. split; [intros [-> ->]; done | intros [= -> ->]; done].
Qed.

Lemma elem_of_insert_key (k x : Z * Z) (l : list (Z * Z)) :
  x ∈ insert_key k l ↔ x = k ∨ x ∈ l.
Proof.
  induction l as [|k' rest IH]; simpl.
  - rewrite list_elem_of_singleton, elem_of_nil. tauto.
  - destruct (pair_eqb k k') eqn:E.
    + apply pair_eqb_eq in E as ->. rewrite elem_of_cons. tauto.
    + destruct (pair_ltb k k').
      * rewrite elem_of_cons. tauto.
      * rewrite !elem_of_cons, IH. tauto.
Qed.

Lemma elem_of_distinct_keys (x : Z * Z) (keys : list (Z * Z)) :
  x ∈ distinct_keys keys ↔ x ∈ keys.
Proof.
  induction keys as [|k keys IH]; simpl; [done|].
  rewrite elem_of_insert_key, IH, elem_of_cons. tauto.
Qed.


Lemma filter_eq_fmap {A B} `{EqDecision B} (f : A → B) (k : B) (l : list A) :
  length (filter (λ y, y = k) (f <$> l)) = length (filter (λ x, f x = k) l).
Proof.
  induction l as [|x l IH]; [done|].
  rewrite fmap_cons, !filter_cons. case_decide; simpl; by rewrite IH.
Qed.

Section Sampling.
Context {num : Type} `{!Float64 num} {rng : Type}
  (poisson : num → rng → result (Z * rng)).

End Sampling.

Section ScoreSimulator.
Local Open Scope Q_scope.



Implicit Types (trials : list (Z * Z)).

Lemma home_win_count trials (k : Z * Z) :
  is_HomeWin k = true →
  len (filter (λ x, x = k) (filter (λ x, is_HomeWin x = true) trials))
  = len (filter (λ x, x = k) trials).
Proof.
  intros Hk. unfold len. f_equal. f_equal.
  rewrite list_filter_filter. apply list_filter_iff.
  intros x. split; [tauto | intros ->; done].
Qed.

Lemma away_win_count trials (k : Z * Z) :
  is_AwayWin (k.2, k.1) = true →
  len (filter (λ x, x = k)
         ((λ x, (x.2, x.1)) <$> filter (λ x, is_AwayWin x = true) trials))
  = len (filter (λ x, x = (k.2, k.1)) trials).
Proof.
  intros Hk. unfold len. f_equal.
  rewrite (filter_eq_fmap (λ x : Z * Z, (x.2, x.1))). f_equal.
  rewrite list_filter_filter. apply list_filter_iff.
  intros [x1 x2]. destruct k as [k1 k2]. simpl in *.
  split; [intros [[= <- <-] _]; done | intros [= -> ->]; done].
Qed.



Lemma is_HomeWin_lt (k : Z * Z) : is_HomeWin k = true ↔ (k.2 < k.1)%Z.
Proof.
  unfold is_HomeWin, classify.
  destruct (Z.ltb_spec k.2 k.1); [done|].
  destruct (Z.ltb_spec k.1 k.2); split; (done || lia).
Qed.

Lemma is_AwayWin_lt (k : Z * Z) : is_AwayWin k = true ↔ (k.1 < k.2)%Z.
Proof.
  unfold is_AwayWin, classify.
  destruct (Z.ltb_spec k.2 k.1); [split; (done || lia)|].
  destruct (Z.ltb_spec k.1 k.2); split; (done || lia).
Qed.



End ScoreSimulator.

(** ** The record tracker in closed form *)

Section RecordTally.
Context {num : Type} `{!Float64 num}.
Implicit Types (team_records : gmap string TeamRecord) (row : Game num).

Lemma foldl_update_row_sides (schedule_df : list (Game num)) team_records :
  foldl update_row team_records schedule_df
  = foldl update_team team_records (sides schedule_df).
Proof.
  revert team_records.
  induction schedule_df as [|row rows IH]; intros team_records; [done|].
  unfold sides. rewrite bind_cons, foldl_app. simpl. apply IH.
Qed.

Lemma tally_snoc (ss : list (string * num * num)) (s : string * num * num) :
  tally (ss ++ [s])
  = credit (fgt s.1.2 s.2) (if decide (ss = []) then new_record else tally ss).
Proof.
  unfold tally, credit, won, lost, len.
  rewrite !filter_app, !length_app, !filter_cons, !filter_nil.
  destruct (decide (ss = [])) as [->|_];
    destruct (fgt s.1.2 s.2) eqn:E; simpl; f_equal; lia.
Qed.

Lemma foldl_update_team_lookup (ss : list (string * num * num)) team :
  foldl update_team ∅ ss !! team
  = let mine := filter (λ s, s.1.1 = team) ss in
    if decide (mine = []) then None else Some (tally mine).
Proof.
  induction ss as [|s ss IH] using rev_ind; [done|].
  rewrite foldl_app. simpl. destruct s as [[t gf] ga].
  rewrite update_team_lookup, filter_app. simpl.
  destruct (decide (t = team)) as [->|Hne].
  - rewrite (filter_cons_True (λ s, s.1.1 = team)) by done.
    rewrite filter_nil, tally_snoc. simpl.
    rewrite decide_False by (by destruct (filter (λ s, s.1.1 = team) ss)).
    rewrite IH. simpl.
    by destruct (decide (filter (λ s, s.1.1 = team) ss = [])).
  - rewrite (filter_cons_False (λ s, s.1.1 = team)) by done.
    by rewrite filter_nil, app_nil_r, IH.
Qed.

Lemma calculate_team_records_lookup (schedule_df : list (Game num)) team :
  calculate_team_records schedule_df !! team
  = if decide (sides_of team schedule_df = []) then None
    else Some (tally (sides_of team schedule_df)).
Proof.
  unfold calculate_team_records. rewrite foldl_update_row_sides.
  apply foldl_update_team_lookup.
Qed.

Lemma sides_Permutation (l l' : list (Game num)) : l ≡ₚ l' → sides l ≡ₚ sides l'.
Proof. intros Hp. unfold sides. by rewrite Hp. Qed.

Lemma tally_Permutation (ss ss' : list (string * num * num)) :
  ss ≡ₚ ss' → tally ss = tally ss'.
Proof. intros Hp. unfold tally, len. by rewrite Hp. Qed.

(** X2. [calculate_team_records] in closed form.  A team has a record
    exactly when some row names it as home or away team; its total_games is
    the number of row sides it appears on, its wins the number of those
    sides on which goals_for > goals_against holds, and its losses the
    number of all its other sides. *)
Theorem team_record_is_tally (schedule_df : list (Game num)) (team : string) :
  (calculate_team_records schedule_df !! team = None
   ↔ ∀ row, row ∈ schedule_df → HomeTeam row ≠ team ∧ AwayTeam row ≠ team) ∧
  ∀ r, calculate_team_records schedule_df !! team = Some r →
    total_games r = len (sides_of team schedule_df) ∧
    wins r = len (filter (λ s, fgt s.1.2 s.2 = true) (sides_of team schedule_df)) ∧
    losses r = len (filter (λ s, fgt s.1.2 s.2 = false) (sides_of team schedule_df)).
Proof.
  rewrite calculate_team_records_lookup. split.
  - destruct (decide (sides_of team schedule_df = [])) as [Hnil|Hcons].
    + split; [intros _|done]. intros row Hrow.
      assert (∀ s, s ∈ sides schedule_df → s.1.1 ≠ team) as Hnone.
      { intros s Hs Hteam.
        assert (s ∈ sides_of team schedule_df) as Hin
          by (by apply list_elem_of_filter).
        rewrite Hnil in Hin. by apply elem_of_nil in Hin. }
      split.
      * apply (Hnone (HomeTeam row, HomeGoals row, AwayGoals row)).
        unfold sides. apply list_elem_of_bind. exists row. split; [|done].
        apply list_elem_of_here.
      * apply (Hnone (AwayTeam row, AwayGoals row, HomeGoals row)).
        unfold sides. apply list_elem_of_bind. exists row. split; [|done].
        apply list_elem_of_further, list_elem_of_here.
    + split; [done|]. intros Hnone. exfalso.
      destruct (sides_of team schedule_df) as [|s rest] eqn:E; [done|].
      assert (s ∈ sides_of team schedule_df) as Hin
        by (rewrite E; apply list_elem_of_here).
      apply list_elem_of_filter in Hin as [Hteam Hin].
      unfold sides in Hin. apply list_elem_of_bind in Hin as (row & Hs & Hrow).
      destruct (Hnone row Hrow) as [Hh Ha].
      apply elem_of_cons in Hs as [->|Hs]; [done|].
      apply elem_of_cons in Hs as [->|Hs]; [done|].
      by apply elem_of_nil in Hs.
  - intros r. destruct (decide (sides_of team schedule_df = [])); [done|].
    by intros [= <-].
Qed.

(** X3. The records do not depend on the order of the schedule: two
    schedules with the same rows, in any order, give the same dictionary. *)
Theorem team_records_order_independent (l l' : list (Game num)) :
  l ≡ₚ l' → calculate_team_records l = calculate_team_records l'.
Proof.
  intros Hp. apply map_eq. intros team.
  rewrite !calculate_team_records_lookup.
  assert (sides_of team l ≡ₚ sides_of team l') as Hs.
  { unfold sides_of. by rewrite (sides_Permutation l l' Hp). }
  rewrite (tally_Permutation _ _ Hs).
  destruct (decide (sides_of team l = [])) as [Hnil|Hcons];
    destruct (decide (sides_of team l' = [])) as [Hnil'|Hcons']; try done.
  - rewrite Hnil in Hs. by apply Permutation_nil_l in Hs.
  - rewrite Hnil' in Hs. by apply Permutation_nil_r in Hs.
Qed.
End RecordTally.

Lemma team_records_order_independent_witness :
  calculate_team_records (num:=b64) [played_game; unplayed_game]
  = calculate_team_records [unplayed_game; played_game].
Proof.
  apply team_records_order_independent. apply Permutation_swap.
Defined.

(** ** Properties of the team aggregation *)

Section TeamAggregator.
Context {num : Type} `{!Float64 num}.

Lemma calculate_team_stats_lookup (stats_df : list (StatsRow num)) (team : string) :
  calculate_team_stats stats_df !! team
  = if decide (team_rows team stats_df = []) then None
    else Some (aggregate (team_rows team stats_df)).
Proof.
  unfold calculate_team_stats.
  assert (Hgen : ∀ l : list (StatsRow num),
            foldr (λ row team_stats,
                     <[Team (player row)
                       := aggregate (team_rows (Team (player row)) stats_df)]> team_stats)
                  (∅ : gmap string (TeamSummary num)) l !! team
            = if decide (team_rows team l = []) then None
              else Some (aggregate (team_rows team stats_df))).
  { induction l as [|row l IH]; [done|]. simpl.
    rewrite (filter_cons _ row l : team_rows team (row :: l) = _).
    destruct (decide (Team (player row) = team)) as [<-|Hne].
    - by rewrite lookup_insert_eq.
    - rewrite lookup_insert_ne by done. apply IH. }
  apply Hgen.
Qed.
End TeamAggregator.

Section ExactAggregation.
Local Open Scope Q_scope.

Lemma kahan_add_Fin (s c v : Q) :
  c == 0 →
  ∃ s' c', kahan_add (Fin s, Fin c) (Fin v) = (Fin s', Fin c') ∧
           s' == s + v ∧ c' == 0.
Proof.
  intros Hc. unfold kahan_add. cbn. eexists _, _. split; [reflexivity|].
  split; [rewrite Hc; ring | ring].
Qed.

Lemma foldl_group_step_Fin (l : list Q) (s c : Q) (n : Z) :
  c == 0 →
  ∃ s' c',
    foldl group_step ((Fin s, Fin c), n) (Fin <$> l)
    = ((Fin s', Fin c'), (n + len l)%Z) ∧ s' == s + Qsum l.
Proof.
  revert s c n. induction l as [|v l IH]; intros s c n Hc.
  - exists s, c. split; [|simpl; ring]. simpl. unfold len. simpl.
    by rewrite Z.add_0_r.
  - rewrite fmap_cons. cbn [foldl]. unfold group_step at 2.
    cbn [isnan xq_float64 xq_isnan fst snd].
    destruct (kahan_add_Fin s c v Hc) as (s1 & c1 & -> & Hs1 & Hc1).
    destruct (IH s1 c1 (n + 1)%Z Hc1) as (s' & c' & -> & Hs').
    exists s', c'. split.
    + f_equal. unfold len. rewrite length_cons. lia.
    + rewrite Hs', Hs1. simpl. ring.
Qed.

Lemma group_add_Fin (qs : list Q) :
  ∃ s, group_add (Fin <$> qs) = (Fin s, len qs) ∧ s == Qsum qs.
Proof.
  unfold group_add.
  destruct (foldl_group_step_Fin qs 0 0 0%Z ltac:(reflexivity))
    as (s & c & Hfold & Hs).
  change (of_Z 0) with (Fin 0). rewrite Hfold.
  exists s. split; [done|]. rewrite Hs. ring.
Qed.

Lemma group_add_skips_NaN (values : list xq) :
  group_add values = group_add (filter (λ v, isnan v = false) values).
Proof.
  unfold group_add. generalize ((of_Z 0 : xq, of_Z 0 : xq), 0%Z).
  induction values as [|v values IH]; intros state; [done|].
  rewrite filter_cons. cbn [foldl].
  destruct (isnan v) eqn:E.
  - rewrite decide_False by done.
    assert (group_step state v = state) as -> by (unfold group_step; by rewrite E).
    apply IH.
  - rewrite decide_True by done. cbn [foldl]. apply IH.
Qed.

Lemma group_sum_exact (values : list xq) (qs : list Q) :
  present values = Fin <$> qs → is_Fin (group_sum values) (Qsum qs).
Proof.
  intros Hp. unfold group_sum. rewrite group_add_skips_NaN.
  fold (present values). rewrite Hp.
  destruct (group_add_Fin qs) as (s & -> & Hs). by exists s.
Qed.

Lemma group_mean_exact (values : list xq) (qs : list Q) :
  present values = Fin <$> qs →
  (qs = [] → group_mean values = NaN) ∧
  (qs ≠ [] → is_Fin (group_mean values) (Qsum qs / inject_Z (len qs))).
Proof.
  intros Hp. unfold group_mean. rewrite group_add_skips_NaN.
  fold (present values). rewrite Hp.
  destruct (group_add_Fin qs) as (s & -> & Hs). split.
  - intros ->. reflexivity.
  - intros Hne.
    assert (0 < len qs)%Z as Hlen by (unfold len; destruct qs; [done | simpl; lia]).
    rewrite (proj2 (Z.eqb_neq _ _)) by lia.
    cbn [fdiv of_Z xq_float64].
    assert (0 < inject_Z (len qs)) as Hpos.
    { change 0 with (inject_Z 0). by rewrite <- Zlt_Qlt. }
    rewrite xq_div_Fin by lra.
    eexists. split; [reflexivity|]. by rewrite Hs.
Qed.

(** X4. [calculate_team_stats] in exact arithmetic.  A team has a row in
    the result exactly when a player row names it.  In that row, as long as
    the values of a column that are not NaN are finite: total_goals,
    total_assists and total_points are the sums of the team's goals, assists
    and points that are not NaN (0 when there is none), and avg_rank is the
    sum of the team's RNK values that are not NaN divided by how many they
    are (NaN when there is none). *)
Theorem team_stats_exact (stats_df : list (StatsRow xq)) (team : string) :
  let rows := team_rows team stats_df in
  (calculate_team_stats stats_df !! team = None ↔ rows = []) ∧
  ∀ summary, calculate_team_stats stats_df !! team = Some summary →
    (∀ gs, present ((λ row, G (player row)) <$> rows) = Fin <$> gs →
       is_Fin (total_goals summary) (Qsum gs)) ∧
    (∀ as_, present ((λ row, A (player row)) <$> rows) = Fin <$> as_ →
       is_Fin (total_assists summary) (Qsum as_)) ∧
    (∀ ps, present ((λ row, PTS (player row)) <$> rows) = Fin <$> ps →
       is_Fin (total_points summary) (Qsum ps)) ∧
    (∀ rs, present (RNK <$> rows) = Fin <$> rs →
       (rs = [] → avg_rank summary = NaN) ∧
       (rs ≠ [] → is_Fin (avg_rank summary) (Qsum rs / inject_Z (len rs)))).
Proof.
  intros rows. rewrite calculate_team_stats_lookup. fold rows.
  destruct (decide (rows = [])) as [Hnil|Hcons].
  - split; [done|]. intros summary [=].
  - split; [split; [done | intros; done]|].
    intros summary [= <-]. cbn [aggregate total_goals total_assists total_points avg_rank].
    split; [|split; [|split]].
    + intros gs. apply group_sum_exact.
    + intros as_. apply group_sum_exact.
    + intros ps. apply group_sum_exact.
    + intros rs. apply group_mean_exact.
Qed.
End ExactAggregation.

(** ** Further properties of the strength model *)

Section StrengthOutcomes.
Local Open Scope Q_scope.
Implicit Types (team_stats : gmap string (TeamSummary xq))
  (team_records : gmap string TeamRecord).


Lemma predict_game_winner_Ok_games home_team away_team team_stats team_records r :
  predict_game_winner home_team away_team team_stats team_records = Ok r →
  total_games (record_of team_records home_team) ≠ 0%Z ∧
  total_games (record_of team_records away_team) ≠ 0%Z.
Proof.
  intros Hok.
  destruct (predict_game_winner_Ok_present _ _ _ _ _ Hok)
    as (home_stats & away_stats & Hh & Ha).
  destruct (predict_game_winner_raises home_team away_team team_stats team_records)
    as (_ & _ & Hzero).
  split; intros Hz; rewrite Hzero in Hok by eauto; discriminate.
Qed.





(** X6. The prediction has no home advantage: when a call returns with two
    different probabilities, the call with the two teams exchanged returns
    the same winner, and the odds and the probabilities of each team are
    the same as before (the probabilities up to equality of fractions). *)
Theorem predict_game_winner_swap home_team away_team team_stats team_records
    winner home_odds away_odds (p q : Q) :
  predict_game_winner home_team away_team team_stats team_records
    = Ok (winner, home_odds, away_odds, Fin p, Fin q) →
  ¬ p == q →
  ∃ p' q',
    predict_game_winner away_team home_team team_stats team_records
      = Ok (winner, away_odds, home_odds, Fin q', Fin p') ∧
    p' == p ∧ q' == q.
Proof.
  intros Hok Hne.
  destruct (predict_game_winner_Ok_present _ _ _ _ _ Hok)
    as (home_stats & away_stats & Hh & Ha).
  destruct (predict_game_winner_Ok_games _ _ _ _ _ Hok) as [Hgh Hga].
  destruct (predict_game_winner_Ok _ _ _ _ _ _ _ _ _ _ _ Hh Ha Hok)
    as (h & a & x & y & Hhs & Has & Hsum & Hp & Hq & Hodds & -> & -> & ->).
  injection Hp as ->. injection Hq as ->.
  apply odds_pair_Fin in Hodds as (Hp0 & Hq0 & Hcases).
  rewrite (predict_game_winner_unfold _ _ _ _ _ _ Ha Hh Hga Hgh). cbv zeta.
  rewrite Hhs, Has. cbn [fadd fdiv fgt xq_float64 xq_add].
  assert (¬ a + h == 0) as Hsum' by lra.
  rewrite !xq_div_Fin by done.
  assert (a / (a + h) == a / (h + a)) as Eq by (field; lra).
  assert (h / (a + h) == h / (h + a)) as Ep by (field; lra).
  exists (h / (a + h)), (a / (a + h)). split; [|by split].
  destruct Hcases as [(Hlt & -> & ->)|(Hle & -> & ->)].
  - rewrite odds_pair_away_favourite by (rewrite ?Eq, ?Ep; lra || done).
    cbn [mbind result_bind mret result_ret].
    rewrite (proj2 (xq_gt_Fin (h / (h + a)) (a / (h + a)))) by done.
    rewrite (proj2 (xq_gt_Fin_false (a / (a + h)) (h / (a + h))))
      by (rewrite Eq, Ep; lra).
    rewrite (Qtrunc_comp _ _ (Qdiv_comp _ _ (Qeq_refl 100) _ _ Ep)).
    rewrite (Qtrunc_comp (100 * ((1 - a / (a + h)) / (a / (a + h))))
                         (100 * ((1 - a / (h + a)) / (a / (h + a)))))
      by (by rewrite Eq).
    reflexivity.
  - assert (h / (h + a) < a / (h + a)) as Hlt.
    { apply Qle_lt_or_eq in Hle as [Hlt|Heq]; [done|]. by destruct Hne. }
    rewrite odds_pair_home_favourite by (rewrite ?Eq, ?Ep; lra || done).
    cbn [mbind result_bind mret result_ret].
    rewrite (proj2 (xq_gt_Fin_false (h / (h + a)) (a / (h + a)))) by lra.
    rewrite (proj2 (xq_gt_Fin (a / (a + h)) (h / (a + h))))
      by (rewrite Eq, Ep; lra).
    rewrite (Qtrunc_comp _ _ (Qdiv_comp _ _ (Qeq_refl 100) _ _ Eq)).
    rewrite (Qtrunc_comp (100 * ((1 - h / (a + h)) / (h / (a + h))))
                         (100 * ((1 - h / (h + a)) / (h / (h + a)))))
      by (by rewrite Ep).
    reflexivity.
Qed.

Lemma predict_game_winner_swap_witness :
  ∃ p' q',
    predict_game_winner (num:=xq) "Sudbury" "Ottawa" (two_teams 150 0 100 0) ∅
      = Ok ("Ottawa", "+150", "-166", Fin q', Fin p') ∧
    p' == 150 # 250 ∧ q' == 100 # 250.
Proof.
  apply (predict_game_winner_swap "Ottawa" "Sudbury" (two_teams 150 0 100 0) ∅
           "Ottawa" "-166" "+150" (150 # 250) (100 # 250)).
  - vm_compute. reflexivity.
  - discriminate.
Defined.

(** X7. Which team is returned as the winner: when the two strengths sum to
    a positive number it is the home team exactly when the home strength is
    strictly the greater, and the away team otherwise; when they sum to a
    negative number the comparison is reversed, so the team with the lower
    strength is returned. *)
Theorem predicted_winner home_team away_team team_stats team_records
    home_stats away_stats winner home_odds away_odds home_prob away_prob
    (h a : Q) :
  team_stats !! home_team = Some home_stats →
  team_stats !! away_team = Some away_stats →
  strength home_stats (record_of team_records home_team) = Fin h →
  strength away_stats (record_of team_records away_team) = Fin a →
  predict_game_winner home_team away_team team_stats team_records
    = Ok (winner, home_odds, away_odds, home_prob, away_prob) →
  (0 < h + a → winner = if Qlt_le_dec a h then home_team else away_team) ∧
  (h + a < 0 → winner = if Qlt_le_dec h a then home_team else away_team).
Proof.
  intros Hh Ha Hhs Has Hok.
  destruct (predict_game_winner_Ok _ _ _ _ _ _ _ _ _ _ _ Hh Ha Hok)
    as (h' & a' & x & y & Hhs' & Has' & Hsum & -> & -> & _ & _ & _ & ->).
  rewrite Hhs in Hhs'. rewrite Has in Has'.
  injection Hhs' as <-. injection Has' as <-.
  assert (h / (h + a) - a / (h + a) == (h - a) / (h + a)) as Ediff
    by (field; exact Hsum).
  split; intros Hsign.
  - assert (0 < / (h + a)) as Hinv by (by apply Qinv_lt_0_compat).
    destruct (Qlt_le_dec a h) as [Hlt|Hle].
    + rewrite (proj2 (xq_gt_Fin _ _)); [done|].
      unfold Qdiv. by apply Qmult_lt_r.
    + rewrite (proj2 (xq_gt_Fin_false _ _)); [done|].
      unfold Qdiv. by apply Qmult_le_r.
  - assert (0 < / - (h + a)) as Hinv by (apply Qinv_lt_0_compat; lra).
    assert (∀ u, u / (h + a) == - u * / - (h + a)) as Eneg
      by (intros u; field; lra).
    destruct (Qlt_le_dec h a) as [Hlt|Hle].
    + rewrite (proj2 (xq_gt_Fin _ _)); [done|].
      rewrite !Eneg. apply Qmult_lt_r; [done | lra].
    + rewrite (proj2 (xq_gt_Fin_false _ _)); [done|].
      rewrite !Eneg. apply Qmult_le_r; [done | lra].
Qed.

Lemma predicted_winner_witness :
  "Sudbury" = (if Qlt_le_dec (-30) (-130) then "Ottawa" else "Sudbury").
Proof.
  refine (proj2 (predicted_winner "Ottawa" "Sudbury" (two_teams 20 (-5) 20 (-15)) ∅
                   (mk_summary (of_Z 20) (of_Z (-5)))
                   (mk_summary (of_Z 20) (of_Z (-15)))
                   "Sudbury" _ _ _ _ (-30) (-130) _ _ _ _ _) _);
    reflexivity.
Defined.
End StrengthOutcomes.

(** ** Bounds on the reported percentages *)


Section PercentageBounds.
Local Open Scope Q_scope.











End PercentageBounds.

(** ** The ranking of the tables *)

Section Ranking.
Context {A : Type} (gtb : A → A → bool) (P : A → Prop) (R : A → A → Prop).
Hypothesis R_gt : ∀ a b, P a → P b → gtb a b = true → R a b.
Hypothesis R_not_gt : ∀ a b, P a → P b → gtb a b = false → R b a.
Hypothesis R_trans : ∀ a b c, P a → P b → P c → R a b → R b c → R a c.

Lemma insert_desc_Forall (Q : A → Prop) (x : A) (l : list A) :
  Q x → Forall Q l → Forall Q (insert_desc gtb x l).
Proof.
  intros Hx Hl. rewrite insert_desc_Permutation. by constructor.
Qed.

Lemma insert_desc_StronglySorted (x : A) (l : list A) :
  P x → Forall P l → StronglySorted R l → StronglySorted R (insert_desc gtb x l).
Proof using R_gt R_not_gt R_trans.
  intros Hx HP Hs. induction Hs as [|y ys Hys IH Hy]; simpl.
  - repeat constructor.
  - apply Forall_cons in HP as [HPy HPys].
    destruct (gtb y x) eqn:E.
    + constructor; [by apply IH|].
      apply insert_desc_Forall; [by apply R_gt | done].
    + constructor; [by constructor|].
      constructor; [by apply R_not_gt|].
      rewrite Forall_forall in Hy, HPys. apply Forall_forall. intros z Hz.
      apply (R_trans x y z); auto.
Qed.

Lemma sort_desc_StronglySorted (l : list A) :
  Forall P l → StronglySorted R (sort_desc gtb l).
Proof using R_gt R_not_gt R_trans.
  induction l as [|x xs IH]; intros HP; simpl; [constructor|].
  apply Forall_cons in HP as [Hx Hxs].
  apply insert_desc_StronglySorted; [done| |by apply IH].
  by rewrite sort_desc_Permutation.
Qed.
End Ranking.

Lemma StronglySorted_take_drop {A} (R : A → A → Prop) (l : list A) (n : nat) :
  StronglySorted R l →
  StronglySorted R (take n l) ∧
  ∀ p q, p ∈ take n l → q ∈ drop n l → R p q.
Proof.
  intros Hs. revert n. induction Hs as [|x xs Hxs IH Hx]; intros [|n]; simpl.
  - split; [constructor | intros p q Hp; by apply elem_of_nil in Hp].
  - split; [constructor | intros p q Hp; by apply elem_of_nil in Hp].
  - split; [constructor | intros p q Hp; by apply elem_of_nil in Hp].
  - destruct (IH n) as [Hsorted Hbelow].
    rewrite Forall_forall in Hx. split.
    + constructor; [done|]. apply Forall_forall. intros z Hz.
      apply Hx. by eapply subseteq_take.
    + intros p q [->|Hp]%elem_of_cons Hq.
      * apply Hx. by eapply subseteq_drop.
      * by apply Hbelow.
Qed.

Lemma StronglySorted_fmap {A B} (f : A → B) (R : B → B → Prop) (l : list A) :
  StronglySorted (λ a b, R (f a) (f b)) l → StronglySorted R (f <$> l).
Proof.
  induction 1 as [|x xs Hxs IH Hx]; simpl; constructor; [done|].
  by apply Forall_fmap.
Qed.

Lemma StronglySorted_NoDup {A} (R : A → A → Prop) (l : list A) :
  (∀ a, ¬ R a a) → StronglySorted R l → NoDup l.
Proof.
  intros Hirr. induction 1 as [|x xs Hxs IH Hx]; constructor; [|done].
  rewrite Forall_forall in Hx. intros Hin. by apply (Hirr x), Hx.
Qed.

Lemma nlargest_int_top {A} (n : nat) (column : A → Z) (rows : list A) :
  ∃ rest,
    rows ≡ₚ nlargest_int n column rows ++ rest ∧
    StronglySorted (λ a b, (column b ≤ column a)%Z) (nlargest_int n column rows) ∧
    (∀ p q, p ∈ nlargest_int n column rows → q ∈ rest → (column q ≤ column p)%Z) ∧
    (rest ≠ [] → length (nlargest_int n column rows) = n).
Proof.
  unfold nlargest_int.
  set (sorted := sort_desc (λ a b, (column b <? column a)%Z) rows).
  assert (StronglySorted (λ a b, (column b ≤ column a)%Z) sorted) as Hs.
  { apply (sort_desc_StronglySorted _ (λ _, True)); [..|by apply Forall_true].
    - intros a b _ _ Hab%Z.ltb_lt. lia.
    - intros a b _ _ Hab%Z.ltb_ge. lia.
    - intros a b c _ _ _. lia. }
  destruct (StronglySorted_take_drop _ sorted n Hs) as [Htake Hbelow].
  exists (drop n sorted). split_and!.
  - rewrite take_drop. subst sorted. by rewrite sort_desc_Permutation.
  - done.
  - done.
  - intros Hrest. rewrite length_take.
    destruct (decide (n ≤ length sorted)) as [Hle|Hgt]; [lia|].
    rewrite drop_ge in Hrest by lia. done.
Qed.

Lemma pair_ltb_lt (a b : Z * Z) :
  pair_ltb a b = true ↔ (a.1 < b.1 ∨ a.1 = b.1 ∧ a.2 < b.2)%Z.
Proof.
  unfold pair_ltb. rewrite orb_true_iff, andb_true_iff, !Z.ltb_lt, Z.eqb_eq. done.
Qed.

Lemma insert_key_StronglySorted (k : Z * Z) (l : list (Z * Z)) :
  StronglySorted (λ a b, pair_ltb a b = true) l →
  StronglySorted (λ a b, pair_ltb a b = true) (insert_key k l).
Proof.
  induction 1 as [|k' rest Hrest IH Hk']; simpl.
  - repeat constructor.
  - destruct (pair_eqb k k') eqn:Eeq; [by constructor|].
    destruct (pair_ltb k k') eqn:Elt.
    + constructor; [by constructor|]. constructor; [done|].
      eapply Forall_impl; [exact Hk'|]. intros z Hz. simpl in Hz.
      apply pair_ltb_lt in Elt, Hz. apply pair_ltb_lt. lia.
    + constructor; [done|]. apply Forall_forall. intros z Hz.
      apply elem_of_insert_key in Hz as [->|Hz].
      * assert (k ≠ k') as Hne.
        { intros ->. by rewrite (proj2 (pair_eqb_eq k' k')) in Eeq. }
        apply pair_ltb_lt.
        assert (¬ (k.1 < k'.1 ∨ k.1 = k'.1 ∧ k.2 < k'.2)%Z) as Hnlt.
        { rewrite <- pair_ltb_lt. by rewrite Elt. }
        destruct k as [k1 k2], k' as [k1' k2']. simpl in *.
        assert (¬ (k1 = k1' ∧ k2 = k2')) by (intros [-> ->]; done). lia.
      * rewrite Forall_forall in Hk'. by apply Hk'.
Qed.

Lemma NoDup_distinct_keys (keys : list (Z * Z)) : NoDup (distinct_keys keys).
Proof.
  apply (StronglySorted_NoDup (λ a b, pair_ltb a b = true)).
  - intros a Ha%pair_ltb_lt. lia.
  - induction keys as [|k keys IH]; simpl; [constructor|].
    by apply insert_key_StronglySorted.
Qed.

Lemma value_counts_keys (keys : list (Z * Z)) :
  fst <$> value_counts keys = distinct_keys keys.
Proof.
  unfold value_counts. rewrite <- list_fmap_compose.
  rewrite <- (list_fmap_id (distinct_keys keys)) at 2.
  by apply list_fmap_ext.
Qed.

Lemma elem_of_value_counts_count (k : Z * Z) (keys : list (Z * Z)) :
  k ∈ keys → (k, len (filter (λ x, x = k) keys)) ∈ value_counts keys.
Proof.
  intros Hk. unfold value_counts.
  apply list_elem_of_fmap. exists k. split; [done|].
  by apply elem_of_distinct_keys.
Qed.

Section TopScorelines.
Context {num : Type} `{!Float64 num}.

Lemma top_table (total : Z) (keys : list (Z * Z)) :
  let table :=
    with_probability (num:=num) total <$> nlargest_int 3 snd (value_counts keys) in
  ranked table ∧
  ∀ k, k ∈ keys →
    k ∈ scoreline <$> table
    ∨ (length table = 3 ∧
       ∀ r, r ∈ table → (len (filter (λ x, x = k) keys) ≤ Count r)%Z).
Proof.
  cbv zeta.
  destruct (nlargest_int_top 3 snd (value_counts keys))
    as (rest & Hperm & Hsorted & Hbelow & Hfull).
  set (top := nlargest_int 3 snd (value_counts keys)) in *.
  assert (Hkeys : scoreline <$> (with_probability (num:=num) total <$> top)
                  = fst <$> top).
  { rewrite <- list_fmap_compose. apply list_fmap_ext.
    intros _ [[??]?] _. reflexivity. }
  split; [split|].
  - apply StronglySorted_fmap. exact Hsorted.
  - rewrite Hkeys.
    pose proof (NoDup_distinct_keys keys) as Hnd.
    rewrite <- value_counts_keys, Hperm, fmap_app in Hnd.
    by apply NoDup_app in Hnd as (Hnd & _ & _).
  - intros k Hk. apply elem_of_value_counts_count in Hk.
    rewrite Hperm in Hk. apply elem_of_app in Hk as [Hk|Hk].
    + left. rewrite Hkeys. apply list_elem_of_fmap. by exists (k, len (filter (λ x, x = k) keys)).
    + right. split.
      * rewrite length_fmap. apply Hfull. intros ->. by apply elem_of_nil in Hk.
      * intros r (row & -> & Hrow)%list_elem_of_fmap.
        apply (Hbelow _ _ Hrow Hk).
Qed.

(** X10. The two tables [simulate_scores] returns are ranked: the counts
    never increase down a table and no scoreline has two rows.  Every
    scoreline of a home win that occurred in a trial is in the home table,
    unless that table has three rows that each count at least as many
    trials as the scoreline; likewise for the away wins and the away
    table, whose rows give the away score first. *)
Theorem top_scorelines_most_frequent {rng : Type}
    (poisson : num → rng → result (Z * rng)) (home_prob away_prob : num)
    (num_simulations : Z) (g g' : rng) top_home_wins top_away_wins
    home_shutout_prob away_shutout_prob :
  simulate_scores poisson home_prob away_prob num_simulations g
    = Ok (top_home_wins, top_away_wins, home_shutout_prob, away_shutout_prob, g') →
  ∃ trials,
    sample_scores poisson (Z.to_nat num_simulations) home_prob away_prob g
      = Ok (trials, g') ∧
    ranked top_home_wins ∧ ranked top_away_wins ∧
    (∀ k, k ∈ trials → (k.2 < k.1)%Z →
       k ∈ scoreline <$> top_home_wins
       ∨ (length top_home_wins = 3 ∧
          ∀ r, r ∈ top_home_wins →
               (len (filter (λ x, x = k) trials) ≤ Count r)%Z)) ∧
    (∀ k, k ∈ trials → (k.1 < k.2)%Z →
       (k.2, k.1) ∈ scoreline <$> top_away_wins
       ∨ (length top_away_wins = 3 ∧
          ∀ r, r ∈ top_away_wins →
               (len (filter (λ x, x = k) trials) ≤ Count r)%Z)).
Proof.
  intros H. unfold simulate_scores in H.
  apply bind_Ok_inv in H as ([trials g1] & Hsample & H).
  apply bind_Ok_inv in H as (r & Hsum & H).
  injection H as -> ->.
  exists trials. split; [done|].
  unfold summarise in Hsum.
  destruct trials as [|t0 trials0] eqn:Etrials; [discriminate|].
  rewrite <- Etrials in *. clear Etrials t0 trials0.
  apply bind_Ok_inv in Hsum as (home_ratio & _ & Hsum).
  apply bind_Ok_inv in Hsum as (away_ratio & _ & Hsum).
  cbv zeta in Hsum. injection Hsum as <- <- _ _.
  destruct (top_table (len trials) (filter (λ x, is_HomeWin x = true) trials))
    as [Hranked_home Htop_home].
  destruct (top_table (len trials)
              ((λ x, (x.2, x.1)) <$> filter (λ x, is_AwayWin x = true) trials))
    as [Hranked_away Htop_away].
  cbv zeta in *.
  split_and!; [done|done| |].
  - intros k Hk Hwin. apply is_HomeWin_lt in Hwin.
    destruct (Htop_home k) as [Hin|[Hlen Hle]].
    { by apply list_elem_of_filter. }
    + by left.
    + right. split; [done|]. intros r Hr.
      rewrite <- (home_win_count trials k Hwin). by apply Hle.
  - intros k Hk Hwin. apply is_AwayWin_lt in Hwin.
    destruct (Htop_away (k.2, k.1)) as [Hin|[Hlen Hle]].
    { apply list_elem_of_fmap. exists k. split; [done|].
      by apply list_elem_of_filter. }
    + by left.
    + right. split; [done|]. intros r Hr.
      specialize (Hle r Hr).
      rewrite (away_win_count trials (k.2, k.1)) in Hle by (by destruct k).
      simpl in Hle. by destruct k.
Qed.
End TopScorelines.

Lemma top_scorelines_most_frequent_witness :
  ∃ trials,
    sample_scores (num:=b64) replay 4 (of_Z 1) (of_Z 1) [2; 1; 2; 1; 3; 0; 0; 1]%Z
      = Ok (trials, []) ∧
    ranked [ {| WinScore := 2; LoseScore := 1; Count := 2;
                Probability := of_Z 50 |};
             {| WinScore := 3; LoseScore := 0; Count := 1;
                Probability := of_Z 25 |} ] ∧
    ranked [ {| WinScore := 1; LoseScore := 0; Count := 1;
                Probability := (of_Z 25 : b64) |} ].
Proof.
  destruct (top_scorelines_most_frequent (num:=b64) replay (of_Z 1) (of_Z 1) 4
              [2; 1; 2; 1; 3; 0; 0; 1]%Z []
              [ {| WinScore := 2; LoseScore := 1; Count := 2;
                   Probability := of_Z 50 |};
                {| WinScore := 3; LoseScore := 0; Count := 1;
                   Probability := of_Z 25 |} ]
              [ {| WinScore := 1; LoseScore := 0; Count := 1;
                   Probability := of_Z 25 |} ]
              (of_Z 1 / of_Z 4 * of_Z 100)%fp
              (of_Z 1 / of_Z 4 * of_Z 100)%fp)
    as (trials & Hsample & Hhome & Haway & _).
  { vm_compute. reflexivity. }
  exists trials. by split_and!.
Defined.

Lemma StronglySorted_app_intro {A} (R : A → A → Prop) (l1 l2 : list A) :
  StronglySorted R l1 → StronglySorted R l2 →
  (∀ a b, a ∈ l1 → b ∈ l2 → R a b) →
  StronglySorted R (l1 ++ l2).
Proof.
  intros H1 H2 Hcross. induction H1 as [|x xs Hxs IH Hx]; simpl; [done|].
  constructor.
  - apply IH. intros a b Ha Hb. apply Hcross; [by right | done].
  - apply Forall_app. split; [done|]. apply Forall_forall. intros b Hb.
    apply Hcross; [by left | done].
Qed.

Lemma StronglySorted_all {A} (R : A → A → Prop) (l : list A) :
  (∀ a b, a ∈ l → b ∈ l → R a b) → StronglySorted R l.
Proof.
  induction l as [|x xs IH]; intros Hall; constructor.
  - apply IH. intros a b Ha Hb. apply Hall; by right.
  - apply Forall_forall. intros b Hb. apply Hall; [by left | by right].
Qed.

Lemma insert_desc_fmap {A B} (f : A → B) (gtb : B → B → bool) (x : A) (l : list A) :
  insert_desc gtb (f x) (f <$> l) = f <$> insert_desc (λ a b, gtb (f a) (f b)) x l.
Proof.
  induction l as [|y ys IH]; simpl; [done|].
  destruct (gtb (f y) (f x)); simpl; [f_equal; apply IH | done].
Qed.

Lemma sort_desc_fmap {A B} (f : A → B) (gtb : B → B → bool) (l : list A) :
  sort_desc gtb (f <$> l) = f <$> sort_desc (λ a b, gtb (f a) (f b)) l.
Proof.
  induction l as [|x xs IH]; simpl; [done|].
  etransitivity; [|apply insert_desc_fmap]. f_equal. apply IH.
Qed.

Lemma filter_fmap_bool {A B} (f : A → B) (test : B → bool) (v : bool) (l : list A) :
  filter (λ r, test r = v) (f <$> l) = f <$> filter (λ r, test (f r) = v) l.
Proof.
  induction l as [|x xs IH]; [done|].
  rewrite fmap_cons, !filter_cons. case_decide; simpl; by rewrite IH.
Qed.

Section Ranked.
Context {num : Type} `{!Float64 num}.

Lemma nlargest_fmap {A B} (f : A → B) (n : nat) (column : B → num) (l : list A) :
  nlargest n column (f <$> l) = f <$> nlargest n (λ a, column (f a)) l.
Proof.
  unfold nlargest.
  rewrite !(filter_fmap_bool f (λ r, isnan (column r))).
  by rewrite sort_desc_fmap, <- fmap_app, fmap_take.
Qed.
End Ranked.

Section TopPlayers.

Lemma xq_not_gt_trans (a b c : xq) :
  a ≠ NaN → b ≠ NaN → c ≠ NaN →
  xq_gt b a = false → xq_gt c b = false → xq_gt c a = false.
Proof.
  destruct a as [a| | |], b as [b| | |], c as [c| | |]; try done.
  rewrite !xq_gt_Fin_false. intros _ _ _ ? ?. by eapply Qle_trans.
Qed.

Lemma xq_gt_asym (a b : xq) : xq_gt a b = true → xq_gt b a = false.
Proof.
  destruct a as [a| | |], b as [b| | |]; try done.
  rewrite xq_gt_Fin, xq_gt_Fin_false. apply Qlt_le_weak.
Qed.

Lemma xq_isnan_true (x : xq) : isnan x = true ↔ x = NaN.
Proof. by destruct x. Qed.

Lemma xq_isnan_false (x : xq) : isnan x = false ↔ x ≠ NaN.
Proof. by destruct x. Qed.

Lemma nlargest_top {A} (n : nat) (column : A → xq) (rows : list A) :
  ∃ rest,
    rows ≡ₚ nlargest n column rows ++ rest ∧
    StronglySorted (λ a b, not_above (column a) (column b))
                   (nlargest n column rows) ∧
    (∀ p q, p ∈ nlargest n column rows → q ∈ rest →
            not_above (column p) (column q)).
Proof.
  unfold nlargest.
  set (valued := filter (λ r, isnan (column r) = false) rows).
  set (missing := filter (λ r, isnan (column r) = true) rows).
  set (sorted := sort_desc (λ a b, fgt (column a) (column b)) valued).
  assert (StronglySorted (λ a b, not_above (column a) (column b))
                         (sorted ++ missing)) as Hs.
  { apply StronglySorted_app_intro.
    - apply (sort_desc_StronglySorted _ (λ r, column r ≠ NaN)).
      + intros a b Ha Hb Hgt. split; [by apply xq_gt_asym | done].
      + intros a b Ha Hb Hgt. split; [done | done].
      + intros a b c Ha Hb Hc [Hab _] [Hbc _].
        split; [by apply (xq_not_gt_trans _ (column b)) | done].
      + apply Forall_forall. intros r Hr.
        apply list_elem_of_filter in Hr as [Hr _]. by apply xq_isnan_false.
    - apply StronglySorted_all. intros a b _ Hb.
      apply list_elem_of_filter in Hb as [Hb%xq_isnan_true _].
      rewrite Hb. split; [by destruct (column a) | done].
    - intros a b _ Hb.
      apply list_elem_of_filter in Hb as [Hb%xq_isnan_true _].
      rewrite Hb. split; [by destruct (column a) | done]. }
  destruct (StronglySorted_take_drop _ _ n Hs) as [Htake Hbelow].
  exists (drop n (sorted ++ missing)). split_and!; [|done|done].
  rewrite take_drop. subst sorted. rewrite sort_desc_Permutation.
  symmetry. apply nan_last_Permutation.
Qed.

(** X11. The players that [calculate_player_probabilities] returns are the
    first three (or all, when fewer) of the team's players in descending
    order of PTS, a missing PTS last: the team's players split into the
    chosen ones and the rest, the result has the rows of the chosen ones in
    that order, no player left out has more points than a chosen one, and
    a player whose PTS is missing is chosen only when the PTS of every
    player left out is missing too. *)
Theorem top_players_by_points (stats_df : list (Player xq)) (team : string) :
  ∃ chosen rest,
    filter (λ p, Team p = team) stats_df ≡ₚ chosen ++ rest ∧
    calculate_player_probabilities stats_df team
      = (λ p, (with_probabilities p).1) <$> chosen ∧
    length chosen = min 3 (length (filter (λ p, Team p = team) stats_df)) ∧
    StronglySorted (λ p q, not_above (PTS p) (PTS q)) chosen ∧
    ∀ p q, p ∈ chosen → q ∈ rest → not_above (PTS p) (PTS q).
Proof.
  unfold calculate_player_probabilities.
  set (team_players := filter (λ p, Team p = team) stats_df).
  rewrite (nlargest_fmap with_probabilities 3 snd team_players).
  destruct (nlargest_top 3 PTS team_players) as (rest & Hperm & Hsorted & Hbelow).
  exists (nlargest 3 PTS team_players), rest. split_and!; try done.
  - by rewrite <- list_fmap_compose.
  - apply nlargest_spec.
Qed.
End TopPlayers.

(** ** Properties of the caller *)

Lemma iloc_spec {A} (rows : list A) (k : Z) :
  iloc rows k =
    if decide (0 ≤ k < len rows)%Z then rows !! Z.to_nat k
    else if decide (- len rows ≤ k < 0)%Z then rows !! Z.to_nat (len rows + k)
    else None.
Proof.
  unfold iloc, len.
  destruct (Z.leb_spec 0 k) as [Hk|Hk].
  - destruct (decide (0 ≤ k < Z.of_nat (length rows))%Z) as [Hin|Hout]; [done|].
    rewrite decide_False by lia. apply lookup_ge_None. lia.
  - rewrite decide_False by lia.
    destruct (Z.leb_spec (- Z.of_nat (length rows)) k) as [Hlo|Hlo].
    + by rewrite decide_True by lia.
    + by rewrite decide_False by lia.
Qed.

Section Selection.
Context {num : Type}.
Implicit Types (schedule_df : list (Game num)).

(** The rows of the date that stand before position [i], as labelled when
    the numbering starts at [start]. *)
Lemma filter_imap_lookup (selected_date : string) schedule_df (start j i : nat)
    (row : Game num) :
  filter (λ ir : nat * Game num, Date ir.2 = selected_date)
         (imap (λ k r, (start + k, r)) schedule_df) !! j = Some (i, row) →
  ∃ k, i = start + k ∧ schedule_df !! k = Some row ∧ Date row = selected_date ∧
       j = length (filter (λ r, Date r = selected_date) (take k schedule_df)).
Proof.
  revert start j. induction schedule_df as [|r rest IH]; intros start j Hj.
  - done.
  - rewrite imap_cons, filter_cons in Hj. simpl in Hj.
    assert (Hrest : ∀ j',
              filter (λ ir : nat * Game num, Date ir.2 = selected_date)
                     (imap ((λ k r, (start + k, r)) ∘ S) rest) !! j' = Some (i, row) →
              ∃ k, i = start + S k ∧ rest !! k = Some row ∧
                   Date row = selected_date ∧
                   j' = length (filter (λ r, Date r = selected_date) (take k rest))).
    { intros j' Hj'.
      rewrite (imap_ext _ (λ k r, (S start + k, r))) in Hj'
        by (intros; simpl; f_equal; lia).
      destruct (IH (S start) j' Hj') as (k & -> & Hk & Hd & ->).
      exists k. split_and!; try done; lia. }
    destruct (decide (Date r = selected_date)) as [Hd|Hd].
    + destruct j as [|j'].
      * injection Hj as <- <-. exists 0. split_and!; try done; lia.
      * simpl in Hj. destruct (Hrest j' Hj) as (k & -> & Hk & Hdk & ->).
        exists (S k). split_and!; try done. simpl.
        rewrite filter_cons, decide_True by done. done.
    + destruct (Hrest j Hj) as (k & -> & Hk & Hdk & ->).
      exists (S k). split_and!; try done. simpl.
      rewrite filter_cons, decide_False by done. done.
Qed.

Lemma games_on_date_lookup (selected_date : string) schedule_df (j i : nat)
    (row : Game num) :
  games_on_date selected_date schedule_df !! j = Some (i, row) →
  schedule_df !! i = Some row ∧ Date row = selected_date ∧
  j = length (filter (λ r, Date r = selected_date) (take i schedule_df)).
Proof.
  intros Hj. unfold games_on_date in Hj.
  rewrite (imap_ext _ (λ k r, (0 + k, r))) in Hj by done.
  by destruct (filter_imap_lookup _ _ _ _ _ _ Hj) as (k & -> & Hk & Hd & ->).
Qed.
End Selection.

Section CallerProperties.
Context {num : Type} `{!Float64 num} {rng : Type}
  (poisson : num → rng → result (Z * rng)).
Implicit Types (schedule_df : list (Game num)) (stats_df : list (StatsRow num))
  (team_stats : gmap string (TeamSummary num))
  (team_records : gmap string TeamRecord).

Lemma iloc_games_on_date selected_date schedule_df (j i : nat) (row : Game num) :
  games_on_date selected_date schedule_df !! j = Some (i, row) →
  iloc (games_on_date selected_date schedule_df) (Z.of_nat j) = Some (i, row).
Proof.
  intros Hj. rewrite iloc_spec, decide_True, Nat2Z.id; [done|].
  apply lookup_lt_Some in Hj. unfold len. lia.
Qed.

Lemma length_filter_all {A} (P : A → Prop) `{!∀ x, Decision (P x)} (l : list A) :
  length (filter P l) = length l ↔ Forall P l.
Proof.
  induction l as [|x l IH]; [by split|].
  rewrite filter_cons, Forall_cons. pose proof (length_filter P l) as Hle.
  destruct (decide (P x)) as [HP|HP]; simpl.
  - rewrite <- IH. split; [intros [=]; done | intros [_ ->]; done].
  - split; [lia | tauto].
Qed.

Lemma fetch_selected selected_date stats_df schedule_df team_stats team_records
    (g : rng) (j i : nat) (row : Game num) :
  games_on_date selected_date schedule_df !! j = Some (i, row) →
  fetch_games_and_run_simulations poisson selected_date stats_df schedule_df
    team_stats team_records (Some (Z.of_nat j)) g
  = match run_selected_game poisson selected_date stats_df team_stats
            team_records row g with
    | Finished (report, g) =>
        Finished
          (Some ((λ ir, (ir.1, HomeTeam ir.2, AwayTeam ir.2))
                   <$> games_on_date selected_date schedule_df, report), g)
    | Raised e => Raised e
    | IndexError => IndexError
    end.
Proof.
  intros Hj. unfold fetch_games_and_run_simulations. cbv zeta.
  rewrite (iloc_games_on_date _ _ _ _ _ Hj).
  destruct (games_on_date selected_date schedule_df); [done|]. done.
Qed.

(** X12. The game that is run is chosen by its position among the games of
    the date, while the listing shows every game under its index label, the
    number of its row in the schedule.  For the game at position j of the
    listing, shown under the label i: entering j runs the prediction, the
    simulation and the report for that game; j is at most i, and the two
    are equal exactly when every earlier row of the schedule is on the
    selected date; when they differ, entering the label i that is shown
    either finds no game (IndexError) or selects a game that is shown
    under a larger label. *)
Theorem selection_is_positional selected_date stats_df schedule_df team_stats
    team_records (g : rng) (j i : nat) (row : Game num) :
  games_on_date selected_date schedule_df !! j = Some (i, row) →
  j ≤ i ∧
  (i = j ↔ Forall (λ r, Date r = selected_date) (take i schedule_df)) ∧
  fetch_games_and_run_simulations poisson selected_date stats_df schedule_df
    team_stats team_records (Some (Z.of_nat j)) g
  = match run_selected_game poisson selected_date stats_df team_stats
            team_records row g with
    | Finished (report, g) =>
        Finished
          (Some ((λ ir, (ir.1, HomeTeam ir.2, AwayTeam ir.2))
                   <$> games_on_date selected_date schedule_df, report), g)
    | Raised e => Raised e
    | IndexError => IndexError
    end ∧
  (j < i →
   ∀ i' row', iloc (games_on_date selected_date schedule_df) (Z.of_nat i)
              = Some (i', row') → i < i').
Proof.
  intros Hj.
  destruct (games_on_date_lookup _ _ _ _ _ Hj) as (Hi & Hd & Hcount).
  pose proof (lookup_lt_Some _ _ _ Hi) as Hlt.
  assert (Hlen : length (take i schedule_df) = i) by (rewrite length_take; lia).
  pose proof (length_filter (λ r : Game num, Date r = selected_date)
                (take i schedule_df)) as Hle.
  split_and!.
  - lia.
  - rewrite <- length_filter_all. rewrite Hlen, <- Hcount. done.
  - by eapply fetch_selected.
  - intros Hji i' row' Hsel.
    rewrite iloc_spec in Hsel.
    destruct (decide _) as [Hin|Hout] in Hsel.
    + rewrite Nat2Z.id in Hsel.
      destruct (games_on_date_lookup _ _ _ _ _ Hsel) as (Hi' & _ & Hcount').
      pose proof (lookup_lt_Some _ _ _ Hi') as Hlt'.
      pose proof (length_filter (λ r : Game num, Date r = selected_date)
                    (take i' schedule_df)) as Hle'.
      rewrite length_take in Hle'.
      destruct (decide (i' = i)) as [->|Hne]; lia.
    + rewrite decide_False in Hsel by lia. done.
Qed.

(** X13. How [fetch_games_and_run_simulations] ends before any prediction
    is made.  With no game on the date it returns at once, whatever would
    be entered.  With m > 0 games: an entry that is no integer raises
    [ValueError], an integer outside -m .. m-1 raises [IndexError], and a
    negative integer k from -m on selects the same game as m + k, counting
    from the end of the listing. *)
Theorem selection_outcomes selected_date stats_df schedule_df team_stats
    team_records (g : rng) :
  let games := games_on_date selected_date schedule_df in
  let run entry :=
    fetch_games_and_run_simulations poisson selected_date stats_df schedule_df
      team_stats team_records entry g in
  (games = [] → ∀ entry, run entry = Finished (None, g)) ∧
  (games ≠ [] → run None = Raised ValueError) ∧
  (games ≠ [] → ∀ k, ¬ (- len games ≤ k < len games)%Z → run (Some k) = IndexError) ∧
  (∀ k, (- len games ≤ k < 0)%Z → run (Some k) = run (Some (len games + k)%Z)).
Proof.
  cbv zeta. unfold fetch_games_and_run_simulations. cbv zeta.
  destruct (games_on_date selected_date schedule_df) as [|game games] eqn:Hgames.
  - split_and!; done.
  - split_and!; try done.
    + intros _ k Hk. rewrite iloc_spec.
      rewrite decide_False by lia. rewrite decide_False by lia. done.
    + intros k Hk. rewrite !iloc_spec.
      rewrite (decide_False (P := (0 ≤ k < _)%Z)) by lia.
      rewrite (decide_True (P := (- _ ≤ k < 0)%Z)) by lia.
      rewrite (decide_True (P := (0 ≤ len (game :: games) + k < _)%Z)) by lia.
      done.
Qed.





End CallerProperties.

Lemma xq_to_int_errors (x : xq) (e : exn) :
  to_int x = Raise e → e = ValueError ∨ e = OverflowError.
Proof. destruct x; simpl; intros [= <-]; auto. Qed.


Lemma selection_is_positional_witness :
  fetch_games_and_run_simulations (num:=b64) replay "2024-10-02" []
    [played_game; on_date "2024-10-02" unplayed_game] ∅ ∅ (Some 0%Z) []
  = Raised (KeyError "Ottawa").
Proof.
  destruct (selection_is_positional (num:=b64) replay "2024-10-02" []
              [played_game; on_date "2024-10-02" unplayed_game] ∅ ∅ [] 0 1
              (on_date "2024-10-02" unplayed_game))
    as (_ & _ & Hrun & _); [reflexivity|].
  exact Hrun.
Defined.


(** ** Rates the sampler rejects *)

Section FirstTrial.
Context {num : Type} `{!Float64 num} {rng : Type}
  (poisson : num → rng → result (Z * rng)).

End FirstTrial.

Section OppositeStrengths.
Local Open Scope Q_scope.



End OppositeStrengths.

